(** * MPU-9250 DMP driver (mpu9250.c): shallow embedding and verified properties

    The driver is embedded as state-passing functions over a [world] that
    holds the globals of mpu9250.c, the trace of bus/GPIO operations, the
    console and the calibration files.  The bus transport, the GPIO layer,
    libc and the quaternion helpers live outside mpu9250.c; their answers are
    supplied by an [environment] that may depend on the whole trace so far. *)

From Stdlib Require Import ZArith List Bool Lia String Ascii.
From Stdlib Require Import DecimalString DecimalZ DecimalPos.
From Stdlib Require Import Floats.SpecFloat.
Import ListNotations.
Open Scope Z_scope.

Set Implicit Arguments.

(** ** C integers *)

(** Two's-complement reinterpretation of a value as a signed [w]-bit integer. *)
Definition wrap_signed (w : Z) (z : Z) : Z :=
  (z + 2 ^ (w - 1)) mod 2 ^ w - 2 ^ (w - 1).

Definition int16 (z : Z) : Z := wrap_signed 16 z.
Definition long32 (z : Z) : Z := wrap_signed 32 z.
Definition uint8 (z : Z) : Z := z mod 256.
Definition uint16 (z : Z) : Z := z mod 65536.

(** C truth value of an [int]. *)
Definition truthy (z : Z) : bool := negb (z =? 0).

(** ** Floating point

    [float] arithmetic is kept behind an interface: one operation per C
    operator, conversions from integers, and the comparisons the driver
    uses.  [x > y] is [fltb y x] and [x >= y] is [fleb y x].

    Where an expression has a [double] operand (the literal [100.0] in
    [data_fusion]) C promotes the [float] operands, computes in [double]
    and converts back on assignment: [dbl] with [to_dbl], [of_dbl] and its
    own operations. *)
Class FloatOps (F : Type) : Type := {
  f_of_int : Z -> F;
  fadd : F -> F -> F;
  fsub : F -> F -> F;
  fmul : F -> F -> F;
  fdiv : F -> F -> F;
  fneg : F -> F;
  fabs : F -> F;
  feqb : F -> F -> bool;
  fltb : F -> F -> bool;
  fleb : F -> F -> bool;
  dbl : Type;
  to_dbl : F -> dbl;
  of_dbl : dbl -> F;
  d_of_int : Z -> dbl;
  dadd : dbl -> dbl -> dbl;
  dmul : dbl -> dbl -> dbl;
  ddiv : dbl -> dbl -> dbl
}.

Definition vec3 (A : Type) : Type := (A * A * A)%type.
Definition quat4 (A : Type) : Type := (A * A * A * A)%type.

(** ** Types of bb_blue_api.h *)

Inductive imu_orientation_t :=
| ORIENTATION_Z_UP | ORIENTATION_Z_DOWN
| ORIENTATION_X_UP | ORIENTATION_X_DOWN
| ORIENTATION_Y_UP | ORIENTATION_Y_DOWN.

(** The enumerators' values; an [imu_orientation_t] field is an [int] and can
    hold any value, so the configuration stores the number. *)
Definition orientation_code (o : imu_orientation_t) : Z :=
  match o with
  | ORIENTATION_Z_UP => 136 | ORIENTATION_Z_DOWN => 396
  | ORIENTATION_X_UP => 14 | ORIENTATION_X_DOWN => 266
  | ORIENTATION_Y_UP => 112 | ORIENTATION_Y_DOWN => 336
  end.

Definition orientation_of_code (c : Z) : option imu_orientation_t :=
  if c =? 136 then Some ORIENTATION_Z_UP
  else if c =? 396 then Some ORIENTATION_Z_DOWN
  else if c =? 14 then Some ORIENTATION_X_UP
  else if c =? 266 then Some ORIENTATION_X_DOWN
  else if c =? 112 then Some ORIENTATION_Y_UP
  else if c =? 336 then Some ORIENTATION_Y_DOWN
  else None.

Record imu_config_t : Type := mkConfig {
  accel_fsr : Z;
  gyro_fsr : Z;
  gyro_dlpf : Z;
  accel_dlpf : Z;
  enable_magnetometer : Z;
  dmp_sample_rate : Z;
  orientation : Z;
  compass_mix_factor : Z;
  dmp_interrupt_priority : Z;
  show_warnings : Z
}.

(** [imu_data_t] with the field names mpu9250.c uses. *)
Record imu_data_t (F : Type) : Type := mkData {
  accel : vec3 F;
  gyro : vec3 F;
  mag : vec3 F;
  temp : F;
  raw_gyro : vec3 Z;
  raw_accel : vec3 Z;
  accel_to_ms2 : F;
  gyro_to_degs : F;
  dmp_quat : quat4 F;
  dmp_TaitBryan : vec3 F;
  fused_quat : quat4 F;
  fused_TaitBryan : vec3 F;
  compass_heading : F
}.

(** ** Bus, GPIO and thread operations seen from outside *)

Inductive reg :=
| INT_ENABLE | FIFO_EN | USER_CTRL | INT_PIN_CFG | SMPLRT_DIV
| FIFO_COUNTH | FIFO_R_W | WHO_AM_I_MPU9250 | XG_OFFSET_H
| MPU6500_BANK_SEL | MPU6500_MEM_R_W | MPU6500_PRGM_START_H
| I2C_MST_CTRL | I2C_SLV0_ADDR | I2C_SLV0_REG | I2C_SLV0_CTRL
| AK8963_CNTL | AK8963_ASAX | PWR_MGMT_1.

Inductive dev_addr := IMU_ADDR | AK8963_ADDR.

(** A user callback is named by a number; 0 is [null_func]. *)
Definition func_id := Z.
Definition null_func : func_id := 0.

Inductive event :=
| I2cInit
| I2cInUseQuery
| I2cClaim
| I2cRelease
| I2cSetAddr (a : dev_addr)
| I2cWriteByte (r : reg) (v : Z)
| I2cWriteBytes (r : reg) (vs : list Z)
| I2cReadByte (r : reg)
| I2cReadWord (r : reg)
| I2cReadBytes (r : reg) (n : Z)
| GpioExport | GpioSetDir | GpioSetEdge | GpioFdOpen | GpioFdClose
| Poll
| ReadClock
| Usleep (us : Z)
| SetSchedParam (prio : Z)
| ThreadCreate
| ThreadJoin
| ReadMagData
| UserCallback (f : func_id).

(** ** Calibration store *)

Record filesys : Type := mkFs {
  config_dir_present : bool;                (* CONFIG_DIRECTORY exists *)
  mkdir_works : bool;                       (* mkdir(CONFIG_DIRECTORY) can succeed *)
  fprintf_works : bool;                     (* fprintf reports success *)
  files : list (string * string)            (* path |-> contents *)
}.

Fixpoint lookup_file (p : string) (l : list (string * string)) : option string :=
  match l with
  | [] => None
  | (q, c) :: l' => if String.eqb p q then Some c else lookup_file p l'
  end.

Definition store_file (p c : string) (l : list (string * string)) :=
  (p, c) :: filter (fun qc => negb (String.eqb p (fst qc))) l.

(** ** The driver's world *)

Record world (F : Type) : Type := mkWorld {
  (* globals of mpu9250.c *)
  config : imu_config_t;
  bypass_en : Z;
  dmp_en : Z;
  packet_len : Z;
  imu_interrupt_func : func_id;
  interrupt_running : Z;
  mag_factory_adjust : vec3 F;
  mag_offsets : vec3 F;
  mag_scales : vec3 F;
  data : imu_data_t F;                      (* the struct behind data_ptr *)
  last_read_successful : Z;
  last_interrupt_timestamp_micros : Z;
  shutdown_interrupt_thread : Z;
  (* function-local statics *)
  fifo_first_run : Z;                       (* read_dmp_fifo: first_run *)
  lastDMPYaw : F;                           (* data_fusion *)
  lastYaw : F;                              (* data_fusion *)
  fusion_first_run : Z;                     (* data_fusion: first_run *)
  (* surroundings *)
  hw_log : list event;
  console : list string;
  disk : filesys
}.

Arguments mkData {F}.
Arguments mkWorld {F}.

(** Field updates. *)
Section Updates.
Context {F : Type}.

Definition set_config (c : imu_config_t) (w : world F) : world F :=
  mkWorld c (bypass_en w) (dmp_en w) (packet_len w) (imu_interrupt_func w)
    (interrupt_running w) (mag_factory_adjust w) (mag_offsets w) (mag_scales w)
    (data w) (last_read_successful w) (last_interrupt_timestamp_micros w)
    (shutdown_interrupt_thread w) (fifo_first_run w) (lastDMPYaw w) (lastYaw w)
    (fusion_first_run w) (hw_log w) (console w) (disk w).

Definition set_bypass_en (v : Z) (w : world F) : world F :=
  mkWorld (config w) v (dmp_en w) (packet_len w) (imu_interrupt_func w)
    (interrupt_running w) (mag_factory_adjust w) (mag_offsets w) (mag_scales w)
    (data w) (last_read_successful w) (last_interrupt_timestamp_micros w)
    (shutdown_interrupt_thread w) (fifo_first_run w) (lastDMPYaw w) (lastYaw w)
    (fusion_first_run w) (hw_log w) (console w) (disk w).

Definition set_dmp_en (v : Z) (w : world F) : world F :=
  mkWorld (config w) (bypass_en w) v (packet_len w) (imu_interrupt_func w)
    (interrupt_running w) (mag_factory_adjust w) (mag_offsets w) (mag_scales w)
    (data w) (last_read_successful w) (last_interrupt_timestamp_micros w)
    (shutdown_interrupt_thread w) (fifo_first_run w) (lastDMPYaw w) (lastYaw w)
    (fusion_first_run w) (hw_log w) (console w) (disk w).

Definition set_packet_len (v : Z) (w : world F) : world F :=
  mkWorld (config w) (bypass_en w) (dmp_en w) v (imu_interrupt_func w)
    (interrupt_running w) (mag_factory_adjust w) (mag_offsets w) (mag_scales w)
    (data w) (last_read_successful w) (last_interrupt_timestamp_micros w)
    (shutdown_interrupt_thread w) (fifo_first_run w) (lastDMPYaw w) (lastYaw w)
    (fusion_first_run w) (hw_log w) (console w) (disk w).

Definition set_imu_interrupt_func_ptr (v : func_id) (w : world F) : world F :=
  mkWorld (config w) (bypass_en w) (dmp_en w) (packet_len w) v
    (interrupt_running w) (mag_factory_adjust w) (mag_offsets w) (mag_scales w)
    (data w) (last_read_successful w) (last_interrupt_timestamp_micros w)
    (shutdown_interrupt_thread w) (fifo_first_run w) (lastDMPYaw w) (lastYaw w)
    (fusion_first_run w) (hw_log w) (console w) (disk w).

Definition set_interrupt_running (v : Z) (w : world F) : world F :=
  mkWorld (config w) (bypass_en w) (dmp_en w) (packet_len w) (imu_interrupt_func w)
    v (mag_factory_adjust w) (mag_offsets w) (mag_scales w)
    (data w) (last_read_successful w) (last_interrupt_timestamp_micros w)
    (shutdown_interrupt_thread w) (fifo_first_run w) (lastDMPYaw w) (lastYaw w)
    (fusion_first_run w) (hw_log w) (console w) (disk w).

Definition set_mag_factory_adjust (v : vec3 F) (w : world F) : world F :=
  mkWorld (config w) (bypass_en w) (dmp_en w) (packet_len w) (imu_interrupt_func w)
    (interrupt_running w) v (mag_offsets w) (mag_scales w)
    (data w) (last_read_successful w) (last_interrupt_timestamp_micros w)
    (shutdown_interrupt_thread w) (fifo_first_run w) (lastDMPYaw w) (lastYaw w)
    (fusion_first_run w) (hw_log w) (console w) (disk w).

Definition set_mag_offsets (v : vec3 F) (w : world F) : world F :=
  mkWorld (config w) (bypass_en w) (dmp_en w) (packet_len w) (imu_interrupt_func w)
    (interrupt_running w) (mag_factory_adjust w) v (mag_scales w)
    (data w) (last_read_successful w) (last_interrupt_timestamp_micros w)
    (shutdown_interrupt_thread w) (fifo_first_run w) (lastDMPYaw w) (lastYaw w)
    (fusion_first_run w) (hw_log w) (console w) (disk w).

Definition set_mag_scales (v : vec3 F) (w : world F) : world F :=
  mkWorld (config w) (bypass_en w) (dmp_en w) (packet_len w) (imu_interrupt_func w)
    (interrupt_running w) (mag_factory_adjust w) (mag_offsets w) v
    (data w) (last_read_successful w) (last_interrupt_timestamp_micros w)
    (shutdown_interrupt_thread w) (fifo_first_run w) (lastDMPYaw w) (lastYaw w)
    (fusion_first_run w) (hw_log w) (console w) (disk w).

Definition set_data (v : imu_data_t F) (w : world F) : world F :=
  mkWorld (config w) (bypass_en w) (dmp_en w) (packet_len w) (imu_interrupt_func w)
    (interrupt_running w) (mag_factory_adjust w) (mag_offsets w) (mag_scales w)
    v (last_read_successful w) (last_interrupt_timestamp_micros w)
    (shutdown_interrupt_thread w) (fifo_first_run w) (lastDMPYaw w) (lastYaw w)
    (fusion_first_run w) (hw_log w) (console w) (disk w).

Definition set_last_read_successful (v : Z) (w : world F) : world F :=
  mkWorld (config w) (bypass_en w) (dmp_en w) (packet_len w) (imu_interrupt_func w)
    (interrupt_running w) (mag_factory_adjust w) (mag_offsets w) (mag_scales w)
    (data w) v (last_interrupt_timestamp_micros w)
    (shutdown_interrupt_thread w) (fifo_first_run w) (lastDMPYaw w) (lastYaw w)
    (fusion_first_run w) (hw_log w) (console w) (disk w).

Definition set_last_interrupt_timestamp_micros (v : Z) (w : world F) : world F :=
  mkWorld (config w) (bypass_en w) (dmp_en w) (packet_len w) (imu_interrupt_func w)
    (interrupt_running w) (mag_factory_adjust w) (mag_offsets w) (mag_scales w)
    (data w) (last_read_successful w) v
    (shutdown_interrupt_thread w) (fifo_first_run w) (lastDMPYaw w) (lastYaw w)
    (fusion_first_run w) (hw_log w) (console w) (disk w).

Definition set_shutdown_interrupt_thread (v : Z) (w : world F) : world F :=
  mkWorld (config w) (bypass_en w) (dmp_en w) (packet_len w) (imu_interrupt_func w)
    (interrupt_running w) (mag_factory_adjust w) (mag_offsets w) (mag_scales w)
    (data w) (last_read_successful w) (last_interrupt_timestamp_micros w)
    v (fifo_first_run w) (lastDMPYaw w) (lastYaw w)
    (fusion_first_run w) (hw_log w) (console w) (disk w).

Definition set_fifo_first_run (v : Z) (w : world F) : world F :=
  mkWorld (config w) (bypass_en w) (dmp_en w) (packet_len w) (imu_interrupt_func w)
    (interrupt_running w) (mag_factory_adjust w) (mag_offsets w) (mag_scales w)
    (data w) (last_read_successful w) (last_interrupt_timestamp_micros w)
    (shutdown_interrupt_thread w) v (lastDMPYaw w) (lastYaw w)
    (fusion_first_run w) (hw_log w) (console w) (disk w).

Definition set_lastDMPYaw (v : F) (w : world F) : world F :=
  mkWorld (config w) (bypass_en w) (dmp_en w) (packet_len w) (imu_interrupt_func w)
    (interrupt_running w) (mag_factory_adjust w) (mag_offsets w) (mag_scales w)
    (data w) (last_read_successful w) (last_interrupt_timestamp_micros w)
    (shutdown_interrupt_thread w) (fifo_first_run w) v (lastYaw w)
    (fusion_first_run w) (hw_log w) (console w) (disk w).

Definition set_lastYaw (v : F) (w : world F) : world F :=
  mkWorld (config w) (bypass_en w) (dmp_en w) (packet_len w) (imu_interrupt_func w)
    (interrupt_running w) (mag_factory_adjust w) (mag_offsets w) (mag_scales w)
    (data w) (last_read_successful w) (last_interrupt_timestamp_micros w)
    (shutdown_interrupt_thread w) (fifo_first_run w) (lastDMPYaw w) v
    (fusion_first_run w) (hw_log w) (console w) (disk w).

Definition set_fusion_first_run (v : Z) (w : world F) : world F :=
  mkWorld (config w) (bypass_en w) (dmp_en w) (packet_len w) (imu_interrupt_func w)
    (interrupt_running w) (mag_factory_adjust w) (mag_offsets w) (mag_scales w)
    (data w) (last_read_successful w) (last_interrupt_timestamp_micros w)
    (shutdown_interrupt_thread w) (fifo_first_run w) (lastDMPYaw w) (lastYaw w)
    v (hw_log w) (console w) (disk w).

Definition set_hw_log (v : list event) (w : world F) : world F :=
  mkWorld (config w) (bypass_en w) (dmp_en w) (packet_len w) (imu_interrupt_func w)
    (interrupt_running w) (mag_factory_adjust w) (mag_offsets w) (mag_scales w)
    (data w) (last_read_successful w) (last_interrupt_timestamp_micros w)
    (shutdown_interrupt_thread w) (fifo_first_run w) (lastDMPYaw w) (lastYaw w)
    (fusion_first_run w) v (console w) (disk w).

Definition set_console (v : list string) (w : world F) : world F :=
  mkWorld (config w) (bypass_en w) (dmp_en w) (packet_len w) (imu_interrupt_func w)
    (interrupt_running w) (mag_factory_adjust w) (mag_offsets w) (mag_scales w)
    (data w) (last_read_successful w) (last_interrupt_timestamp_micros w)
    (shutdown_interrupt_thread w) (fifo_first_run w) (lastDMPYaw w) (lastYaw w)
    (fusion_first_run w) (hw_log w) v (disk w).

Definition set_disk (v : filesys) (w : world F) : world F :=
  mkWorld (config w) (bypass_en w) (dmp_en w) (packet_len w) (imu_interrupt_func w)
    (interrupt_running w) (mag_factory_adjust w) (mag_offsets w) (mag_scales w)
    (data w) (last_read_successful w) (last_interrupt_timestamp_micros w)
    (shutdown_interrupt_thread w) (fifo_first_run w) (lastDMPYaw w) (lastYaw w)
    (fusion_first_run w) (hw_log w) (console w) v.

(* fields of the sample *)
Definition d_set_accel (v : vec3 F) (d : imu_data_t F) : imu_data_t F :=
  mkData v (gyro d) (mag d) (temp d) (raw_gyro d) (raw_accel d) (accel_to_ms2 d)
    (gyro_to_degs d) (dmp_quat d) (dmp_TaitBryan d) (fused_quat d)
    (fused_TaitBryan d) (compass_heading d).
Definition d_set_gyro (v : vec3 F) (d : imu_data_t F) : imu_data_t F :=
  mkData (accel d) v (mag d) (temp d) (raw_gyro d) (raw_accel d) (accel_to_ms2 d)
    (gyro_to_degs d) (dmp_quat d) (dmp_TaitBryan d) (fused_quat d)
    (fused_TaitBryan d) (compass_heading d).
Definition d_set_mag (v : vec3 F) (d : imu_data_t F) : imu_data_t F :=
  mkData (accel d) (gyro d) v (temp d) (raw_gyro d) (raw_accel d) (accel_to_ms2 d)
    (gyro_to_degs d) (dmp_quat d) (dmp_TaitBryan d) (fused_quat d)
    (fused_TaitBryan d) (compass_heading d).
Definition d_set_raw_gyro (v : vec3 Z) (d : imu_data_t F) : imu_data_t F :=
  mkData (accel d) (gyro d) (mag d) (temp d) v (raw_accel d) (accel_to_ms2 d)
    (gyro_to_degs d) (dmp_quat d) (dmp_TaitBryan d) (fused_quat d)
    (fused_TaitBryan d) (compass_heading d).
Definition d_set_raw_accel (v : vec3 Z) (d : imu_data_t F) : imu_data_t F :=
  mkData (accel d) (gyro d) (mag d) (temp d) (raw_gyro d) v (accel_to_ms2 d)
    (gyro_to_degs d) (dmp_quat d) (dmp_TaitBryan d) (fused_quat d)
    (fused_TaitBryan d) (compass_heading d).
Definition d_set_dmp_quat (v : quat4 F) (d : imu_data_t F) : imu_data_t F :=
  mkData (accel d) (gyro d) (mag d) (temp d) (raw_gyro d) (raw_accel d) (accel_to_ms2 d)
    (gyro_to_degs d) v (dmp_TaitBryan d) (fused_quat d)
    (fused_TaitBryan d) (compass_heading d).
Definition d_set_dmp_TaitBryan (v : vec3 F) (d : imu_data_t F) : imu_data_t F :=
  mkData (accel d) (gyro d) (mag d) (temp d) (raw_gyro d) (raw_accel d) (accel_to_ms2 d)
    (gyro_to_degs d) (dmp_quat d) v (fused_quat d)
    (fused_TaitBryan d) (compass_heading d).
Definition d_set_fused_quat (v : quat4 F) (d : imu_data_t F) : imu_data_t F :=
  mkData (accel d) (gyro d) (mag d) (temp d) (raw_gyro d) (raw_accel d) (accel_to_ms2 d)
    (gyro_to_degs d) (dmp_quat d) (dmp_TaitBryan d) v
    (fused_TaitBryan d) (compass_heading d).
Definition d_set_fused_TaitBryan (v : vec3 F) (d : imu_data_t F) : imu_data_t F :=
  mkData (accel d) (gyro d) (mag d) (temp d) (raw_gyro d) (raw_accel d) (accel_to_ms2 d)
    (gyro_to_degs d) (dmp_quat d) (dmp_TaitBryan d) (fused_quat d)
    v (compass_heading d).
Definition d_set_compass_heading (v : F) (d : imu_data_t F) : imu_data_t F :=
  mkData (accel d) (gyro d) (mag d) (temp d) (raw_gyro d) (raw_accel d) (accel_to_ms2 d)
    (gyro_to_degs d) (dmp_quat d) (dmp_TaitBryan d) (fused_quat d)
    (fused_TaitBryan d) v.
End Updates.

(** ** What lies outside mpu9250.c

    Return values of the bus transport, GPIO and lifecycle calls, each a
    function of the trace so far, and the quaternion helpers declared in
    bb_blue_api.h. *)
Record environment (F : Type) : Type := mkEnv {
  i2c_get_in_use_state_ret : list event -> Z;
  i2c_init_ret : list event -> Z;
  i2c_write_ret : list event -> Z;               (* i2c_write_byte, i2c_write_bytes *)
  i2c_read_byte_ret : list event -> option Z;    (* None: negative return *)
  i2c_read_word_ret : list event -> option Z;    (* None: negative return *)
  i2c_read_bytes_ret : list event -> Z * list Z; (* return value, bytes left in the buffer *)
  gpio_export_ret : list event -> Z;
  gpio_fd_open_ret : list event -> Z;
  get_state_is_exiting : list event -> bool;
  micros_since_epoch_ret : list event -> Z;
  sched_get_priority_max_ret : Z;
  uninitialised_int : Z;                         (* contents of a stack slot never written *)
  uninitialised_float : F;
  normalizeQuaternion : quat4 F -> quat4 F;
  quaternionToTaitBryan : quat4 F -> vec3 F;
  TaitBryanToQuaternion : vec3 F -> quat4 F;
  tilt_compensate : quat4 F -> quat4 F -> quat4 F;
  atan2f : F -> F -> F;
  set_gyro_fsr : Z -> imu_data_t F -> list event -> imu_data_t F * list event;
  set_accel_fsr : Z -> imu_data_t F -> list event -> imu_data_t F * list event;
  set_gyro_dlpf : Z -> list event -> list event;
  set_accel_dlpf : Z -> list event -> list event;
  thread_join_timed_out : list event -> bool;
  read_mag_data_ret : list event -> Z * vec3 F;  (* return value, data->mag *)
  fitEllipsoid : list (vec3 F) -> Z * vec3 F * vec3 F  (* return value, center, lengths *)
}.

(** Macros and tables of the headers that are not part of the sources at
    hand (register bits, DMP memory keys, firmware image, limits). *)
Class mpu9250_defs (F : Type) : Type := {
  DMP_MAX_RATE : Z;
  DMP_MIN_RATE : Z;
  DMP_SAMPLE_RATE : Z;
  MPU6500_BANK_SIZE : Z;
  DMP_CODE_SIZE : Z;
  DMP_LOAD_CHUNK : Z;
  dmp_firmware : list Z;
  dmp_start_addr : Z;
  MAGNETOMETER_SATURATION : Z;
  MAG_RAW_TO_uT : F;
  PI : F;
  TWO_PI : F;
  YAW_MIX_FACTOR : imu_config_t -> Z;            (* an int-valued macro; it may read [config] *)
  BIT_FIFO_RST : Z; BIT_DMP_RST : Z; BIT_DMP_EN : Z; BIT_FIFO_EN : Z;
  I2C_MST_EN : Z; BIT_DMP_INT_EN : Z; BIT_DATA_RDY_EN : Z;
  FIFO_SLV0_EN : Z; FIFO_EN_BIT : Z;
  LATCH_INT_EN : Z; INT_ANYRD_CLEAR : Z; ACTL_ACTIVE_LOW : Z; BYPASS_EN : Z;
  MAG_POWER_DN : Z; MAG_FUSE_ROM : Z; MSCALE_16 : Z; MAG_CONT_MES_2 : Z;
  AK8963_XOUT_L : Z; H_RESET : Z; MPU_SLEEP : Z;
  CONFIG_DIRECTORY : string;
  GYRO_CAL_FILE : string;
  MAG_CAL_FILE : string
}.

(** Keys into the DMP memory map, DMP instruction bytes and feature masks
    (the DMP headers, likewise not part of the sources at hand). *)
Class dmp_map : Type := {
  FCFG_1 : Z; FCFG_2 : Z; FCFG_3 : Z; FCFG_7 : Z;
  D_0_22 : Z; D_0_104 : Z;
  CFG_6 : Z; CFG_8 : Z; CFG_15 : Z; CFG_20 : Z; CFG_27 : Z;
  CFG_MOTION_BIAS : Z; CFG_GYRO_RAW_DATA : Z; CFG_ANDROID_ORIENT_INT : Z;
  CFG_LP_QUAT : Z; CFG_FIFO_ON_EVENT : Z;
  DINA4C : Z; DINACD : Z; DINA6C : Z; DINA0C : Z; DINAC9 : Z; DINA2C : Z;
  DINA36 : Z; DINA56 : Z; DINA76 : Z; DINA26 : Z; DINA46 : Z; DINA66 : Z;
  DINAFE : Z; DINAF2 : Z; DINAAB : Z; DINAAA : Z; DINAF1 : Z; DINADF : Z;
  DINA20 : Z; DINA28 : Z; DINA30 : Z; DINA38 : Z;
  DINAC0 : Z; DINA80 : Z; DINAC2 : Z; DINA90 : Z;
  DINBC0 : Z; DINBC2 : Z; DINBC4 : Z; DINBC6 : Z;
  GYRO_SF : Z;
  DMP_FEATURE_TAP : Z; DMP_FEATURE_ANDROID_ORIENT : Z;
  DMP_FEATURE_LP_QUAT : Z; DMP_FEATURE_6X_LP_QUAT : Z; DMP_FEATURE_GYRO_CAL : Z;
  DMP_FEATURE_SEND_RAW_ACCEL : Z; DMP_FEATURE_SEND_RAW_GYRO : Z;
  DMP_FEATURE_SEND_CAL_GYRO : Z; DMP_FEATURE_SEND_ANY_GYRO : Z;
  DMP_INT_CONTINUOUS : Z; DMP_INT_GESTURE : Z
}.

(** ** State-passing computations *)

Definition M (F A : Type) : Type := world F -> A * world F.

Definition ret {F A} (a : A) : M F A := fun w => (a, w).
Definition bind {F A B} (m : M F A) (k : A -> M F B) : M F B :=
  fun w => let (a, w') := m w in k a w'.
Definition gets {F A} (f : world F -> A) : M F A := fun w => (f w, w).
Definition modify {F} (f : world F -> world F) : M F unit := fun w => (tt, f w).

Declare Scope drv_scope.
Delimit Scope drv_scope with drv.
Notation "x <- m ;; k" := (bind m (fun x => k))
  (at level 100, m at next level, right associativity) : drv_scope.
Notation "m ;; k" := (bind m (fun _ => k))
  (at level 100, right associativity) : drv_scope.
Open Scope drv_scope.

Definition result {F A} (m : M F A) (w : world F) : A := fst (m w).
Definition after {F A} (m : M F A) (w : world F) : world F := snd (m w).

(** ** The driver *)

Definition FIFO_LEN_NO_MAG : Z := 28.
Definition FIFO_LEN_MAG : Z := 35.

Definition QUAT_ERROR_THRESH : Z := Z.shiftl 1 24.
Definition QUAT_MAG_SQ_NORMALIZED : Z := Z.shiftl 1 28.
Definition QUAT_MAG_SQ_MIN : Z := QUAT_MAG_SQ_NORMALIZED - QUAT_ERROR_THRESH.
Definition QUAT_MAG_SQ_MAX : Z := QUAT_MAG_SQ_NORMALIZED + QUAT_ERROR_THRESH.

(** [raw[k]] of a byte buffer. *)
Definition rawb (raw : list Z) (k : Z) : Z := nth (Z.to_nat k) raw 0.

(** Tait-Bryan vectors are indexed by TB_PITCH_X, TB_ROLL_Y, TB_YAW_Z, which
    are positions 0, 1, 2 of a three-element array; quaternions by QUAT_W,
    QUAT_X, QUAT_Y, QUAT_Z = 0..3 (bb_blue_api.h). *)
Definition tb_pitch_x {A} (v : vec3 A) : A := fst (fst v).
Definition tb_roll_y {A} (v : vec3 A) : A := snd (fst v).
Definition tb_yaw_z {A} (v : vec3 A) : A := snd v.
Definition quat_w {A} (q : quat4 A) : A := fst (fst (fst q)).
Definition quat_x {A} (q : quat4 A) : A := snd (fst (fst q)).
Definition quat_y {A} (q : quat4 A) : A := snd (fst q).
Definition quat_z {A} (q : quat4 A) : A := snd q.

(** ** Text of the calibration files

    [fprintf] and [fscanf] with the formats the driver uses.  A newline is
    character 10. *)

Definition nl : string := String (ascii_of_nat 10) EmptyString.

(** [%d] on output. *)
Definition fmt_d (z : Z) : string := NilZero.string_of_int (Z.to_int z).

(** ["%d\n%d\n%d\n"] *)
Definition fmt_gyro_cal (x y z : Z) : string :=
  (fmt_d x ++ nl ++ fmt_d y ++ nl ++ fmt_d z ++ nl)%string.

(** White space as [isspace] has it: space and characters 9 to 13. *)
Definition is_space (c : ascii) : bool :=
  let n := nat_of_ascii c in
  (Nat.eqb n 32 || (Nat.leb 9 n && Nat.leb n 13))%bool.

Definition is_digit (c : ascii) : bool :=
  let n := nat_of_ascii c in (Nat.leb 48 n && Nat.leb n 57)%bool.

Fixpoint skip_space (s : string) : string :=
  match s with
  | String c s' => if is_space c then skip_space s' else s
  | EmptyString => s
  end.

(** The longest prefix of digits, and what follows it. *)
Fixpoint span_digits (s : string) : string * string :=
  match s with
  | String c s' =>
    if is_digit c then let (ds, r) := span_digits s' in (String c ds, r)
    else (EmptyString, s)
  | EmptyString => (EmptyString, s)
  end.

(** One [%d] conversion: leading white space, an optional sign, at least one
    digit.  The result is the value and the unread input. *)
Definition scan_d (s : string) : option (Z * string) :=
  let s0 := skip_space s in
  let '(sign, s1) :=
    match s0 with
    | String c r =>
      if Ascii.eqb c "-" then (String c EmptyString, r)
      else if Ascii.eqb c "+" then (EmptyString, r)
      else (EmptyString, s0)
    | EmptyString => (EmptyString, s0)
    end in
  let '(ds, rest) := span_digits s1 in
  match ds with
  | EmptyString => None
  | _ => option_map (fun d => (Z.of_int d, rest))
                    (NilZero.int_of_string (sign ++ ds)%string)
  end.

(** [fscanf(cal, "%d\n%d\n%d\n", &x, &y, &z)]: conversions stop at the first
    failure and the remaining variables keep what they held ([junk]). *)
Definition scan_gyro_cal (junk : Z) (text : string) : Z * Z * Z :=
  match scan_d text with
  | None => (junk, junk, junk)
  | Some (x, r1) =>
    match scan_d (skip_space r1) with
    | None => (x, junk, junk)
    | Some (y, r2) =>
      match scan_d (skip_space r2) with
      | None => (x, y, junk)
      | Some (z, _) => (x, y, z)
      end
    end
  end.

(** [%f] of libc, on output and on input. *)
Class FloatText (F : Type) : Type := {
  fmt_f : F -> string;
  scan_f : string -> option (F * string)
}.

(** ["%f\n%f\n%f\n%f\n%f\n%f\n"] *)
Definition fmt_mag_cal {F} `{FloatText F} (offsets scale : vec3 F) : string :=
  let '(o0, o1, o2) := offsets in
  let '(s0, s1, s2) := scale in
  (fmt_f o0 ++ nl ++ fmt_f o1 ++ nl ++ fmt_f o2 ++ nl ++
   fmt_f s0 ++ nl ++ fmt_f s1 ++ nl ++ fmt_f s2 ++ nl)%string.

(** Up to [n] successive [%f] conversions separated by white space. *)
Fixpoint scan_floats {F} `{FloatText F} (n : nat) (text : string) : list F :=
  match n with
  | O => []
  | S n' =>
    match scan_f (skip_space text) with
    | None => []
    | Some (x, r) => x :: scan_floats n' r
    end
  end.

(** [fscanf] with six [%f]: variables not reached keep [junk]. *)
Definition scan_mag_cal {F} `{FloatText F} (junk : F) (text : string)
  : F * F * F * (F * F * F) :=
  let l := scan_floats 6 text in
  let v k := nth k l junk in
  (v 0%nat, v 1%nat, v 2%nat, (v 3%nat, v 4%nat, v 5%nat)).

(** What follows a number in the file: nothing, or a character that is not
    a digit. *)
Definition ends_number (rest : string) : Prop :=
  match rest with
  | EmptyString => True
  | String c _ => is_digit c = false
  end.

(** libc's [%f] treats [x] faithfully up to [close]: its output has no
    leading white space, and reading that output back, up to the newline
    that follows it, yields a value close to [x]. *)
Definition text_faithful {F} `{FloatText F} (close : F -> F -> Prop) (x : F) : Prop :=
  (forall r, skip_space (fmt_f x ++ r) = (fmt_f x ++ r)%string) /\
  (forall r, exists x', scan_f (fmt_f x ++ nl ++ r) = Some (x', (nl ++ r)%string) /\
                        close x x').

Section Driver.
Context {F : Type} {FO : FloatOps F} {D : mpu9250_defs F} {K : dmp_map}.
Variable E : environment F.

Local Abbreviation M := (M F).

(** *** Primitives: console, bus transport, timing *)

Definition printf (s : string) : M unit :=
  modify (fun w => set_console (console w ++ [s]) w).

(** [if(config.show_warnings){ printf(...); }] *)
Definition warn (s : string) : M unit :=
  sw <- gets (fun w => show_warnings (config w)) ;;
  if truthy sw then printf s else ret tt.

(** An operation is appended to the trace; its return value is the
    environment's answer to the trace that ends with it. *)
Definition call {A} (e : event) (answer : list event -> A) : M A :=
  fun w => let l := hw_log w ++ [e] in (answer l, set_hw_log l w).

Definition emit (e : event) : M unit := call e (fun _ => tt).

Definition usleep (us : Z) : M unit := emit (Usleep us).
Definition i2c_set_device_address (a : dev_addr) : M unit := emit (I2cSetAddr a).
Definition i2c_claim_bus : M unit := emit I2cClaim.
Definition i2c_release_bus : M unit := emit I2cRelease.
Definition i2c_get_in_use_state : M Z := call I2cInUseQuery (i2c_get_in_use_state_ret E).
Definition i2c_init : M Z := call I2cInit (i2c_init_ret E).

(** The data argument is a [uint8_t]. *)
Definition i2c_write_byte (r : reg) (v : Z) : M Z :=
  call (I2cWriteByte r (uint8 v)) (i2c_write_ret E).
Definition i2c_write_bytes (r : reg) (vs : list Z) : M Z :=
  call (I2cWriteBytes r vs) (i2c_write_ret E).
Definition i2c_read_byte (r : reg) : M (option Z) :=
  call (I2cReadByte r) (i2c_read_byte_ret E).
(** The word lands in a [uint16_t]. *)
Definition i2c_read_word (r : reg) : M (option Z) :=
  call (I2cReadWord r) (fun l => option_map uint16 (i2c_read_word_ret E l)).
(** The length argument is a [uint8_t]. *)
Definition i2c_read_bytes (r : reg) (n : Z) : M (Z * list Z) :=
  call (I2cReadBytes r (uint8 n)) (i2c_read_bytes_ret E).

(** *** mpu_reset_fifo (mpu9250.c:1048) *)
Definition mpu_reset_fifo : M Z :=
  r <- i2c_write_byte INT_ENABLE 0 ;;
  if truthy r then ret (-1) else
  r <- i2c_write_byte FIFO_EN 0 ;;
  if truthy r then ret (-1) else
  r <- i2c_write_byte USER_CTRL (Z.lor BIT_FIFO_RST BIT_DMP_RST) ;;
  if truthy r then ret (-1) else
  usleep 2500 ;;
  cfg <- gets (@config F) ;;
  let data0 := Z.lor BIT_DMP_EN BIT_FIFO_EN in
  let data1 := if truthy (enable_magnetometer cfg)
               then Z.lor data0 I2C_MST_EN else data0 in
  r <- i2c_write_byte USER_CTRL data1 ;;
  if truthy r then ret (-1) else
  en <- gets (@dmp_en F) ;;
  (if truthy en then (_ <- i2c_write_byte INT_ENABLE BIT_DMP_INT_EN ;; ret tt)
   else ret tt) ;;
  let data2 := if truthy (enable_magnetometer cfg)
               then Z.lor 0 FIFO_SLV0_EN else 0 in
  r <- i2c_write_byte FIFO_EN data2 ;;
  if truthy r then ret (-1) else ret 0.

(** *** data_fusion (mpu9250.c:1528) *)

(** [if (y > TWO_PI) y -= TWO_PI; else if (y < 0.0f) y += TWO_PI;]
    (lines 1617-1619 and 1640-1643) *)
Definition wrap_0_2pi (y : F) : F :=
  if fltb TWO_PI y then fsub y TWO_PI
  else if fltb y (f_of_int 0) then fadd y TWO_PI
  else y.

(** [if (d >= PI) d -= TWO_PI; else if (d < -PI) d += TWO_PI;] (1625-1628) *)
Definition wrap_pm_pi (d : F) : F :=
  if fleb PI d then fsub d TWO_PI
  else if fltb d (fneg PI) then fadd d TWO_PI
  else d.

(** [y += d * 100.0 / ((float)YAW_MIX_FACTOR * (float)config.dmp_sample_rate)]
    (1636-1637): the product of the two casts is a [float]; the rest is
    computed in [double] and converted back on assignment. *)
Definition blend_yaw (y d : F) (mix rate : Z) : F :=
  of_dbl (dadd (to_dbl y)
               (ddiv (dmul (to_dbl d) (d_of_int 100))
                     (to_dbl (fmul (f_of_int mix) (f_of_int rate))))).

(** [if (y > PI) y -= TWO_PI;] (1648-1649) *)
Definition slide_to_pm_pi (y : F) : F :=
  if fltb PI y then fsub y TWO_PI else y.

(** The magnetic field vector as a quaternion, by mounting orientation
    (the [switch] at 1554-1588); [None] is the [default] case. *)
Definition mag_quat_for (orient : Z) (m : vec3 F) : option (quat4 F) :=
  let z := f_of_int 0 in
  match orientation_of_code orient with
  | Some ORIENTATION_Z_UP => Some (z, tb_pitch_x m, tb_roll_y m, tb_yaw_z m)
  | Some ORIENTATION_Z_DOWN => Some (z, fneg (tb_pitch_x m), tb_roll_y m, fneg (tb_yaw_z m))
  | Some ORIENTATION_X_UP => Some (z, tb_yaw_z m, tb_roll_y m, tb_pitch_x m)
  | Some ORIENTATION_X_DOWN => Some (z, fneg (tb_yaw_z m), tb_roll_y m, fneg (tb_pitch_x m))
  | Some ORIENTATION_Y_UP => Some (z, tb_pitch_x m, fneg (tb_yaw_z m), tb_roll_y m)
  | Some ORIENTATION_Y_DOWN => Some (z, tb_pitch_x m, tb_yaw_z m, fneg (tb_roll_y m))
  | None => None
  end.

Definition data_fusion : M Z :=
  d <- gets (@data F) ;;
  cfg <- gets (@config F) ;;
  let fusedEuler : vec3 F :=
    (tb_pitch_x (dmp_TaitBryan d), tb_roll_y (dmp_TaitBryan d), f_of_int 0) in
  let unfusedQuat := TaitBryanToQuaternion E fusedEuler in
  last_dmp <- gets (@lastDMPYaw F) ;;
  let deltaDMPYaw := fsub last_dmp (tb_yaw_z (dmp_TaitBryan d)) in
  modify (set_lastDMPYaw (tb_yaw_z (dmp_TaitBryan d))) ;;
  match mag_quat_for (orientation cfg) (mag d) with
  | None => printf "ERROR: invalid orientation\n" ;; ret (-1)
  | Some magQuat0 =>
    let magQuat := tilt_compensate E magQuat0 unfusedQuat in
    let newMagYaw0 := fneg (atan2f E (quat_y magQuat) (quat_x magQuat)) in
    if negb (feqb newMagYaw0 newMagYaw0) then
      printf "newMagYaw NAN\n" ;; ret (-1)
    else
    modify (fun w => set_data (d_set_compass_heading newMagYaw0 (data w)) w) ;;
    let newMagYaw := if fltb newMagYaw0 (f_of_int 0)
                     then fadd TWO_PI newMagYaw0 else newMagYaw0 in
    first <- gets (@fusion_first_run F) ;;
    (if truthy first
     then modify (set_lastYaw newMagYaw) ;; modify (set_fusion_first_run 0)
     else ret tt) ;;
    last_yaw <- gets (@lastYaw F) ;;
    let newYaw := wrap_0_2pi (fadd last_yaw deltaDMPYaw) in
    let deltaMagYaw := wrap_pm_pi (fsub newMagYaw newYaw) in
    if YAW_MIX_FACTOR cfg =? 0 then
      printf "ERROR: YAW_MIX_FACTOR must be >0\n" ;; ret (-1)
    else
    let newYaw1 :=
      wrap_0_2pi (blend_yaw newYaw deltaMagYaw (YAW_MIX_FACTOR cfg)
                            (dmp_sample_rate cfg)) in
    modify (set_lastYaw newYaw1) ;;
    let newYaw2 := slide_to_pm_pi newYaw1 in
    modify (fun w =>
      let d' := data w in
      set_data (d_set_fused_TaitBryan
                  (tb_pitch_x (dmp_TaitBryan d'), tb_roll_y (dmp_TaitBryan d'), newYaw2)
                  d') w) ;;
    modify (fun w =>
      let d' := data w in
      set_data (d_set_fused_quat (TaitBryanToQuaternion E (fused_TaitBryan d')) d') w) ;;
    ret 0
  end.

(** The locals of [data_fusion] as functions of the state it is called
    in: [newMagYaw] as [atan2f] gives it (line 1596; [None] for an invalid
    orientation), [newMagYaw] made positive (1607), the gyro-predicted
    [newYaw] (1610-1620) and [deltaMagYaw] (1625-1629). *)
Definition fusion_newMagYaw0 (w : world F) : option F :=
  let d := data w in
  let fusedEuler : vec3 F :=
    (tb_pitch_x (dmp_TaitBryan d), tb_roll_y (dmp_TaitBryan d), f_of_int 0) in
  let unfusedQuat := TaitBryanToQuaternion E fusedEuler in
  match mag_quat_for (orientation (config w)) (mag d) with
  | None => None
  | Some magQuat0 =>
    let magQuat := tilt_compensate E magQuat0 unfusedQuat in
    Some (fneg (atan2f E (quat_y magQuat) (quat_x magQuat)))
  end.

Definition compass_yaw (newMagYaw0 : F) : F :=
  if fltb newMagYaw0 (f_of_int 0) then fadd TWO_PI newMagYaw0 else newMagYaw0.

Definition gyro_yaw (w : world F) (newMagYaw0 : F) : F :=
  let last_yaw := if truthy (fusion_first_run w)
                  then compass_yaw newMagYaw0 else lastYaw w in
  wrap_0_2pi (fadd last_yaw
                   (fsub (lastDMPYaw w) (tb_yaw_z (dmp_TaitBryan (data w))))).

Definition delta_mag_yaw (w : world F) (newMagYaw0 : F) : F :=
  wrap_pm_pi (fsub (compass_yaw newMagYaw0) (gyro_yaw w newMagYaw0)).

(** *** read_dmp_fifo (mpu9250.c:1285) *)

(** Lines 1311-1355: the FIFO byte count, read once and, when it is short
    of one packet or between one and two, once more after 2.5 ms.
    [None]: the function has returned -1. *)
Definition fifo_count_phase : M (option Z) :=
  pl <- gets (@packet_len F) ;;
  r <- i2c_read_word FIFO_COUNTH ;;
  match r with
  | None => warn "fifo_count i2c error: %s\n" ;; ret None
  | Some fifo_count =>
    if 2 * pl <? fifo_count then
      warn "mpu9250 wrong fifo count: %d\n" ;;
      warn "resetting fifo\n" ;;
      _ <- mpu_reset_fifo ;;
      ret None
    else if negb (fifo_count =? pl) && (fifo_count <? 2 * pl) then
      usleep 2500 ;;
      r2 <- i2c_read_word FIFO_COUNTH ;;
      match r2 with
      | None => warn "fifo_count i2c error: %s\n" ;; ret None
      | Some fifo_count2 =>
        if negb (fifo_count2 =? pl) && negb (fifo_count2 =? 2 * pl) then
          sw <- gets (fun w => show_warnings (config w)) ;;
          first <- gets (@fifo_first_run F) ;;
          (if truthy sw && negb (first =? 1) then
             printf "%d bytes available, resetting FIFO: \n" ;;
             _ <- mpu_reset_fifo ;; ret tt
           else ret tt) ;;
          ret None
        else ret (Some fifo_count2)
      end
    else ret (Some fifo_count)
  end.

(** Lines 1360-1377: the offset [i] of the packet to decode; [None] is the
    final [else], which returns -1. *)
Definition fifo_offset_phase (fifo_count : Z) : M (option Z) :=
  pl <- gets (@packet_len F) ;;
  if fifo_count =? 2 * pl then
    warn "warning: mpu9250 fifo contains two packets\n" ;;
    ret (Some pl)
  else if (fifo_count =? FIFO_LEN_NO_MAG) || (pl =? FIFO_LEN_MAG) then
    ret (Some 0)
  else
    warn "mpu9250 false interrupt, %d bytes available\n" ;;
    ret None.

(** Lines 1381-1392: the FIFO contents, with one retry on a negative
    return. *)
Definition fifo_fetch_phase (fifo_count : Z) : M (option (list Z)) :=
  r <- i2c_read_bytes FIFO_R_W fifo_count ;;
  r' <- (if fst r <? 0 then i2c_read_bytes FIFO_R_W fifo_count else ret r) ;;
  if negb (fst r' =? fifo_count) then
    warn "ERROR: failed to read fifo buffer register\n" ;;
    warn "read %d bytes, expected %d\n" ;;
    ret None
  else ret (Some (snd r')).

(** [if (s == 0.0) s = 1.0] *)
Definition guard_scale (s : F) : F :=
  if feqb s (f_of_int 0) then f_of_int 1 else s.

(** Lines 1395-1436: the magnetometer block at offset [i]; the result is
    [is_new_mag_data]. *)
Definition fifo_mag_phase (raw : list Z) (i : Z) : M bool :=
  if truthy (Z.land (rawb raw (i + 6)) MAGNETOMETER_SATURATION) then
    printf "WARNING: magnetometer saturated\n" ;; ret false
  else
    let mag_adc0 := int16 (Z.lor (Z.shiftl (int16 (rawb raw (i + 1))) 8) (rawb raw (i + 0))) in
    let mag_adc1 := int16 (Z.lor (Z.shiftl (int16 (rawb raw (i + 3))) 8) (rawb raw (i + 2))) in
    let mag_adc2 := int16 (Z.lor (Z.shiftl (int16 (rawb raw (i + 5))) 8) (rawb raw (i + 4))) in
    if negb (mag_adc0 =? 0) || negb (mag_adc1 =? 0) || negb (mag_adc2 =? 0) then
      adj <- gets (@mag_factory_adjust F) ;;
      let '(adj0, adj1, adj2) := adj in
      let cal0 := fmul (fmul (f_of_int mag_adc1) adj1) MAG_RAW_TO_uT in
      let cal1 := fmul (fmul (f_of_int mag_adc0) adj0) MAG_RAW_TO_uT in
      let cal2 := fmul (fmul (f_of_int (- mag_adc2)) adj2) MAG_RAW_TO_uT in
      modify (fun w =>
        let '(s0, s1, s2) := mag_scales w in
        set_mag_scales (guard_scale s0, guard_scale s1, guard_scale s2) w) ;;
      modify (fun w =>
        let '(s0, s1, s2) := mag_scales w in
        let '(o0, o1, o2) := mag_offsets w in
        set_data (d_set_mag (fmul (fsub cal0 o0) s0,
                             fmul (fsub cal1 o1) s1,
                             fmul (fsub cal2 o2) s2) (data w)) w) ;;
      ret true
    else ret false.

(** A big-endian 32-bit word of the buffer as a [long] (1439-1446). *)
Definition be_long (raw : list Z) (i : Z) : Z :=
  long32 (Z.lor (Z.lor (Z.lor (Z.shiftl (rawb raw (i + 0)) 24)
                              (Z.shiftl (rawb raw (i + 1)) 16))
                       (Z.shiftl (rawb raw (i + 2)) 8))
                (rawb raw (i + 3))).

(** A big-endian 16-bit word of the buffer as an [int16_t] (1482-1496). *)
Definition be_int16 (raw : list Z) (i : Z) : Z :=
  int16 (Z.lor (Z.shiftl (rawb raw (i + 0)) 8) (rawb raw (i + 1))).

(** Lines 1456-1461. *)
Definition quat_mag_sq_of (raw : list Z) (i : Z) : Z :=
  let q0 := Z.shiftr (be_long raw (i + 0)) 16 in
  let q1 := Z.shiftr (be_long raw (i + 4)) 16 in
  let q2 := Z.shiftr (be_long raw (i + 8)) 16 in
  let q3 := Z.shiftr (be_long raw (i + 12)) 16 in
  long32 (q0 * q0 + q1 * q1 + q2 * q2 + q3 * q3).

Definition quat_rejected (raw : list Z) (i : Z) : bool :=
  (quat_mag_sq_of raw i <? QUAT_MAG_SQ_MIN) || (QUAT_MAG_SQ_MAX <? quat_mag_sq_of raw i).

(** Lines 1438-1514: quaternion check, then quaternion, Euler angles,
    accelerometer and gyroscope; [i] is the offset after the magnetometer
    block. *)
Definition fifo_motion_phase (raw : list Z) (i : Z) (is_new_mag_data : bool) : M Z :=
  if quat_rejected raw i then
    warn "ERROR:Quaternion is outside of the acceptable threshold\n" ;;
    ret (-1)
  else
    let q : quat4 F :=
      (f_of_int (be_long raw (i + 0)), f_of_int (be_long raw (i + 4)),
       f_of_int (be_long raw (i + 8)), f_of_int (be_long raw (i + 12))) in
    modify (fun w => set_data (d_set_dmp_quat q (data w)) w) ;;
    modify (fun w => set_data (d_set_dmp_quat
                                 (normalizeQuaternion E (dmp_quat (data w))) (data w)) w) ;;
    modify (fun w => set_data (d_set_dmp_TaitBryan
                                 (quaternionToTaitBryan E (dmp_quat (data w))) (data w)) w) ;;
    let i := i + 16 in
    modify (fun w => set_data (d_set_raw_accel
               (be_int16 raw (i + 0), be_int16 raw (i + 2), be_int16 raw (i + 4))
               (data w)) w) ;;
    modify (fun w =>
      let d := data w in
      let '(a0, a1, a2) := raw_accel d in
      set_data (d_set_accel (fmul (f_of_int a0) (accel_to_ms2 d),
                             fmul (f_of_int a1) (accel_to_ms2 d),
                             fmul (f_of_int a2) (accel_to_ms2 d)) d) w) ;;
    let i := i + 6 in
    modify (fun w => set_data (d_set_raw_gyro
               (be_int16 raw (0 + i), be_int16 raw (2 + i), be_int16 raw (4 + i))
               (data w)) w) ;;
    modify (fun w =>
      let d := data w in
      let '(g0, g1, g2) := raw_gyro d in
      set_data (d_set_gyro (fmul (f_of_int g0) (gyro_to_degs d),
                            fmul (f_of_int g1) (gyro_to_degs d),
                            fmul (f_of_int g2) (gyro_to_degs d)) d) w) ;;
    (if is_new_mag_data then (_ <- data_fusion ;; ret tt) else ret tt) ;;
    modify (set_fifo_first_run 0) ;;
    ret 0.

(** Lines 1394-1514: everything after the buffer has been read. *)
Definition fifo_decode_phase (raw : list Z) (i : Z) : M Z :=
  pl <- gets (@packet_len F) ;;
  if pl =? FIFO_LEN_MAG then
    is_new_mag_data <- fifo_mag_phase raw i ;;
    fifo_motion_phase raw (i + 7) is_new_mag_data
  else
    fifo_motion_phase raw i false.

(** Lines 1380-1514: read the buffer and decode the packet at offset [i]. *)
Definition fifo_fetch_decode (fifo_count i : Z) : M Z :=
  b <- fifo_fetch_phase fifo_count ;;
  match b with
  | None => ret (-1)
  | Some raw => fifo_decode_phase raw i
  end.

Definition read_dmp_fifo : M Z :=
  en <- gets (@dmp_en F) ;;
  if negb (truthy en) then
    printf "only use mpu_read_fifo in dmp mode\n" ;; ret (-1)
  else
  pl <- gets (@packet_len F) ;;
  if negb (pl =? FIFO_LEN_NO_MAG) && negb (pl =? FIFO_LEN_MAG) then
    printf "ERROR: packet_len is set incorrectly for read_dmp_fifo\n" ;; ret (-1)
  else
  i2c_set_device_address IMU_ADDR ;;
  c <- fifo_count_phase ;;
  match c with
  | None => ret (-1)
  | Some fifo_count =>
    o <- fifo_offset_phase fifo_count ;;
    match o with
    | None => ret (-1)
    | Some i => fifo_fetch_decode fifo_count i
    end
  end.

(** *** DMP memory access (mpu9250.c:625, 656) *)

(** [data] is [None] for a null pointer.  [length] is an [unsigned short];
    the transport's length argument is a [uint8_t]. *)
Definition mpu_write_mem (mem_addr length : Z) (data : option (list Z)) : M Z :=
  match data with
  | None => ret (-1)
  | Some bytes =>
    let tmp0 := uint8 (Z.shiftr mem_addr 8) in
    let tmp1 := uint8 (Z.land mem_addr 255) in
    if MPU6500_BANK_SIZE <? tmp1 + length then
      printf "mpu_write_mem exceeds bank size\n" ;; ret (-1)
    else
    r <- i2c_write_bytes MPU6500_BANK_SEL [tmp0; tmp1] ;;
    if truthy r then ret (-1) else
    r <- i2c_write_bytes MPU6500_MEM_R_W (firstn (Z.to_nat (uint8 length)) bytes) ;;
    if truthy r then ret (-1) else
    ret 0
  end.

(** The reading counterpart; on success the second component is the
    buffer that was filled. *)
Definition mpu_read_mem (mem_addr length : Z) : M (Z * list Z) :=
  let tmp0 := uint8 (Z.shiftr mem_addr 8) in
  let tmp1 := uint8 (Z.land mem_addr 255) in
  if MPU6500_BANK_SIZE <? tmp1 + length then
    printf "mpu_read_mem exceeds bank size\n" ;; ret (-1, [])
  else
  r <- i2c_write_bytes MPU6500_BANK_SEL [tmp0; tmp1] ;;
  if truthy r then ret (-1, []) else
  rd <- i2c_read_bytes MPU6500_MEM_R_W length ;;
  if negb (fst rd =? length) then ret (-1, snd rd) else
  ret (0, snd rd).

(** *** dmp_load_motion_driver_firmware (mpu9250.c:683) *)

Fixpoint bytes_eqb (a b : list Z) : bool :=
  match a, b with
  | [], [] => true
  | x :: a', y :: b' => (x =? y) && bytes_eqb a' b'
  | _, _ => false
  end.

(** [memcmp(p, q, n) == 0] on the first [n] bytes of two buffers. *)
Definition memcmp_eq (p q : list Z) (n : Z) : bool :=
  bytes_eqb (firstn (Z.to_nat n) p) (firstn (Z.to_nat n) q).

(** Number of rounds of [for (ii=0; ii<DMP_CODE_SIZE; ii+=this_write)]
    with [this_write = min(DMP_LOAD_CHUNK, DMP_CODE_SIZE - ii)]: the offset
    advances by a full chunk until the last, shorter one. *)
Definition firmware_chunks : nat :=
  Z.to_nat ((DMP_CODE_SIZE + DMP_LOAD_CHUNK - 1) / DMP_LOAD_CHUNK).

Definition this_write_at (ii : Z) : Z :=
  if DMP_LOAD_CHUNK <? DMP_CODE_SIZE - ii then DMP_LOAD_CHUNK else DMP_CODE_SIZE - ii.

(** The loop body and the remaining [n] rounds, from offset [ii]; the
    result is [None] when the loop ran to its end. *)
Fixpoint load_chunks (n : nat) (ii : Z) : M (option Z) :=
  match n with
  | O => ret None
  | S n' =>
    let this_write := this_write_at ii in
    r <- mpu_write_mem ii this_write (Some (skipn (Z.to_nat ii) dmp_firmware)) ;;
    if truthy r then printf "dmp firmware write failed\n" ;; ret (Some (-1)) else
    rd <- mpu_read_mem ii this_write ;;
    if truthy (fst rd) then printf "dmp firmware read failed\n" ;; ret (Some (-1)) else
    if negb (memcmp_eq (skipn (Z.to_nat ii) dmp_firmware) (snd rd) this_write) then
      printf "dmp firmware write corrupted\n" ;; ret (Some (-2))
    else load_chunks n' (ii + this_write)
  end.

Definition dmp_load_motion_driver_firmware : M Z :=
  i2c_set_device_address IMU_ADDR ;;
  r <- load_chunks firmware_chunks 0 ;;
  match r with
  | Some code => ret code
  | None =>
    let tmp0 := uint8 (Z.shiftr dmp_start_addr 8) in
    let tmp1 := uint8 (Z.land dmp_start_addr 255) in
    r <- i2c_write_bytes MPU6500_PRGM_START_H [tmp0; tmp1] ;;
    if truthy r then ret (-1) else ret 0
  end.

(** *** Sample rate (mpu9250.c:779, 1143) *)

Definition mpu_set_sample_rate (rate : Z) : M Z :=
  if (1000 <? rate) || (rate <? 4) then
    printf "ERROR: sample rate must be between 4 & 1000\n" ;; ret (-1)
  else
  let div := uint8 (Z.quot 1000 rate - 1) in
  r <- i2c_write_byte SMPLRT_DIV div ;;
  if truthy r then printf "I2C bus write error\n" ;; ret (-1) else
  ret 0.

Definition dmp_set_fifo_rate (rate : Z) : M Z :=
  let regs_end := [DINAFE; DINAF2; DINAAB; 196; DINAAA; DINAF1; DINADF; DINADF;
                   187; 175; DINADF; DINADF] in
  let rate := uint16 rate in
  if DMP_SAMPLE_RATE <? rate then ret (-1) else
  let div := uint16 (Z.quot 1000 rate - 1) in
  r <- i2c_write_byte SMPLRT_DIV div ;;
  if truthy r then printf "I2C bus write error\n" ;; ret (-1) else
  let div := 0 in
  let tmp0 := uint8 (Z.land (Z.shiftr div 8) 255) in
  let tmp1 := uint8 (Z.land div 255) in
  r <- mpu_write_mem D_0_22 2 (Some [tmp0; tmp1]) ;;
  if truthy r then ret (-1) else
  r <- mpu_write_mem CFG_6 12 (Some regs_end) ;;
  if truthy r then ret (-1) else
  ret 0.

(** *** Bypass, interrupt enable, DMP state (mpu9250.c:820, 1113, 1167) *)

Definition mpu_set_bypass (bypass_on : Z) : M Z :=
  en <- gets (@dmp_en F) ;;
  let tmp := 0 in
  let tmp := if truthy en then Z.lor tmp FIFO_EN_BIT else tmp in
  let tmp := if negb (truthy bypass_on) then Z.lor tmp I2C_MST_EN else tmp in
  r <- i2c_write_byte USER_CTRL tmp ;;
  if truthy r then ret (-1) else
  usleep 3000 ;;
  let tmp := Z.lor (Z.lor LATCH_INT_EN INT_ANYRD_CLEAR) ACTL_ACTIVE_LOW in
  let tmp := if truthy bypass_on then Z.lor tmp BYPASS_EN else tmp in
  r <- i2c_write_byte INT_PIN_CFG tmp ;;
  if truthy r then ret (-1) else
  modify (set_bypass_en (if truthy bypass_on then 1 else 0)) ;;
  ret 0.

Definition set_int_enable (enable : Z) : M Z :=
  en <- gets (@dmp_en F) ;;
  if truthy en then
    let tmp := if truthy enable then BIT_DMP_INT_EN else 0 in
    r <- i2c_write_byte INT_ENABLE tmp ;;
    if truthy r then ret (-1) else
    r <- i2c_write_byte FIFO_EN 0 ;;
    if truthy r then ret (-1) else
    ret 0
  else
    let tmp := if truthy enable then BIT_DATA_RDY_EN else 0 in
    r <- i2c_write_byte INT_ENABLE tmp ;;
    if truthy r then ret (-1) else
    ret 0.

Definition mpu_set_dmp_state (enable : Z) : M Z :=
  if truthy enable then
    _ <- set_int_enable 0 ;;
    _ <- mpu_set_bypass 0 ;;
    rate <- gets (fun w => dmp_sample_rate (config w)) ;;
    r <- mpu_set_sample_rate rate ;;
    if truthy r then
      printf "ERROR in mpu_set_dmp_date can't change sample rate\n" ;; ret (-1)
    else
    _ <- i2c_write_byte FIFO_EN 0 ;;
    _ <- set_int_enable 1 ;;
    _ <- mpu_reset_fifo ;;
    ret 0
  else
    _ <- set_int_enable 0 ;;
    _ <- i2c_write_byte FIFO_EN 0 ;;
    _ <- mpu_reset_fifo ;;
    ret 0.

(** *** Magnetometer set-up (mpu9250.c:312, 324, 380) *)

Definition reset_mpu9250 : M Z := ret 0.

Definition initialize_magnetometer : M Z :=
  i2c_set_device_address IMU_ADDR ;;
  r <- mpu_set_bypass 1 ;;
  if truthy r then
    printf "failed to set mpu9250 into bypass i2c mode\n" ;; ret (-1)
  else
  i2c_set_device_address AK8963_ADDR ;;
  _ <- i2c_write_byte AK8963_CNTL MAG_POWER_DN ;;
  usleep 1000 ;;
  _ <- i2c_write_byte AK8963_CNTL MAG_FUSE_ROM ;;
  usleep 1000 ;;
  rd <- i2c_read_bytes AK8963_ASAX 3 ;;
  if fst rd <? 0 then
    printf "failed to read magnetometer adjustment regs\n" ;;
    i2c_set_device_address IMU_ADDR ;;
    _ <- mpu_set_bypass 0 ;;
    ret (-1)
  else
  let adjust k :=
    fadd (fdiv (f_of_int (rawb (snd rd) k - 128)) (f_of_int 256)) (f_of_int 1) in
  modify (set_mag_factory_adjust (adjust 0, adjust 1, adjust 2)) ;;
  _ <- i2c_write_byte AK8963_CNTL MAG_POWER_DN ;;
  usleep 100 ;;
  _ <- i2c_write_byte AK8963_CNTL (Z.lor MSCALE_16 MAG_CONT_MES_2) ;;
  usleep 100 ;;
  i2c_set_device_address IMU_ADDR ;;
  ret 0.

Definition power_down_magnetometer : M Z :=
  i2c_set_device_address IMU_ADDR ;;
  r <- mpu_set_bypass 1 ;;
  if truthy r then
    printf "failed to set mpu9250 into bypass i2c mode\n" ;; ret (-1)
  else
  i2c_set_device_address AK8963_ADDR ;;
  r <- i2c_write_byte AK8963_CNTL MAG_POWER_DN ;;
  if r <? 0 then printf "failed to write to magnetometer\n" ;; ret (-1) else
  i2c_set_device_address IMU_ADDR ;;
  r <- mpu_set_bypass 0 ;;
  if truthy r then
    printf "failed to set mpu9250 into bypass i2c mode\n" ;; ret (-1)
  else ret 0.

(** *** power_off_imu (mpu9250.c:411) *)
Definition power_off_imu : M Z :=
  modify (set_shutdown_interrupt_thread 1) ;;
  i2c_set_device_address IMU_ADDR ;;
  r <- i2c_write_byte PWR_MGMT_1 H_RESET ;;
  if truthy r then printf "I2C write to MPU9250 Failed\n" ;; ret (-1) else
  r <- i2c_write_byte PWR_MGMT_1 MPU_SLEEP ;;
  if truthy r then printf "I2C write to MPU9250 Failed\n" ;; ret (-1) else
  timed_out <- call ThreadJoin (thread_join_timed_out E) ;;
  (if timed_out : bool then printf "WARNING: imu_interrupt_thread exit timeout\n"
   else ret tt) ;;
  ret 0.

(** *** DMP configuration (mpu9250.c:729, 856, 985, 1001, 1023, 1089) *)

(** [a[k]] of a small constant table. *)
Definition tbl (a : list Z) (k : Z) : Z := nth (Z.to_nat k) a 0.

Definition dmp_set_orientation (orient : Z) : M Z :=
  let orient := uint16 orient in
  let gyro_axes := [DINA4C; DINACD; DINA6C] in
  let accel_axes := [DINA0C; DINAC9; DINA2C] in
  let gyro_sign := [DINA36; DINA56; DINA76] in
  let accel_sign := [DINA26; DINA46; DINA66] in
  let sel k := Z.land (Z.shiftr orient k) 3 in
  let gyro_regs := [tbl gyro_axes (Z.land orient 3); tbl gyro_axes (sel 3);
                    tbl gyro_axes (sel 6)] in
  let accel_regs := [tbl accel_axes (Z.land orient 3); tbl accel_axes (sel 3);
                     tbl accel_axes (sel 6)] in
  r <- mpu_write_mem FCFG_1 3 (Some gyro_regs) ;;
  if truthy r then ret (-1) else
  r <- mpu_write_mem FCFG_2 3 (Some accel_regs) ;;
  if truthy r then ret (-1) else
  let flip (bit : Z) (v : Z) := if truthy (Z.land orient bit) then uint8 (Z.lor v 1) else v in
  let gyro_regs := [flip 4 (tbl gyro_sign 0); flip 32 (tbl gyro_sign 1);
                    flip 256 (tbl gyro_sign 2)] in
  let accel_regs := [flip 4 (tbl accel_sign 0); flip 32 (tbl accel_sign 1);
                     flip 256 (tbl accel_sign 2)] in
  r <- mpu_write_mem FCFG_3 3 (Some gyro_regs) ;;
  if truthy r then ret (-1) else
  r <- mpu_write_mem FCFG_7 3 (Some accel_regs) ;;
  if truthy r then ret (-1) else
  ret 0.

Definition dmp_enable_gyro_cal (enable : Z) : M Z :=
  if truthy enable then
    mpu_write_mem CFG_MOTION_BIAS 9 (Some [184; 170; 179; 141; 180; 152; 13; 53; 93])
  else
    mpu_write_mem CFG_MOTION_BIAS 9 (Some [184; 170; 170; 170; 176; 136; 195; 197; 199]).

Definition dmp_enable_6x_lp_quat (enable : Z) : M Z :=
  let regs := if truthy enable then [DINA20; DINA28; DINA30; DINA38]
              else [163; 163; 163; 163] in
  _ <- mpu_write_mem CFG_8 4 (Some regs) ;;
  ret 0.

Definition dmp_enable_lp_quat (enable : Z) : M Z :=
  let regs := if truthy enable then [DINBC0; DINBC2; DINBC4; DINBC6]
              else [139; 139; 139; 139] in
  _ <- mpu_write_mem CFG_LP_QUAT 4 (Some regs) ;;
  ret 0.

Definition dmp_enable_feature (mask : Z) : M Z :=
  let mask := uint16 mask in
  let has (m : Z) := truthy (Z.land mask m) in
  _ <- mpu_write_mem D_0_104 4
         (Some [uint8 (Z.land (Z.shiftr GYRO_SF 24) 255);
                uint8 (Z.land (Z.shiftr GYRO_SF 16) 255);
                uint8 (Z.land (Z.shiftr GYRO_SF 8) 255);
                uint8 (Z.land GYRO_SF 255)]) ;;
  let acc := if has DMP_FEATURE_SEND_RAW_ACCEL then [192; 200; 194] else [163; 163; 163] in
  let gyr := if has DMP_FEATURE_SEND_ANY_GYRO then [196; 204; 198] else [163; 163; 163] in
  _ <- mpu_write_mem CFG_15 10 (Some ([163] ++ acc ++ gyr ++ [163; 163; 163])) ;;
  let tmp0 := if has (Z.lor DMP_FEATURE_TAP DMP_FEATURE_ANDROID_ORIENT)
              then DINA20 else 216 in
  (* tmp[1..9] keep the bytes written for CFG_15 *)
  let rest := skipn 1 ([163] ++ acc ++ gyr ++ [163; 163; 163]) in
  _ <- mpu_write_mem CFG_27 1 (Some (tmp0 :: rest)) ;;
  _ <- (if has DMP_FEATURE_GYRO_CAL then dmp_enable_gyro_cal 1
        else dmp_enable_gyro_cal 0) ;;
  rest <-
    (if has DMP_FEATURE_SEND_ANY_GYRO then
       let tmp := (if has DMP_FEATURE_SEND_CAL_GYRO then [178; 139; 182; 155]
                   else [DINAC0; DINA80; DINAC2; DINA90]) ++ skipn 3 rest in
       _ <- mpu_write_mem CFG_GYRO_RAW_DATA 4 (Some tmp) ;;
       ret (skipn 1 tmp)
     else ret rest) ;;
  _ <- mpu_write_mem CFG_20 1 (Some (216 :: rest)) ;;
  _ <- mpu_write_mem CFG_ANDROID_ORIENT_INT 1 (Some (216 :: rest)) ;;
  _ <- (if has DMP_FEATURE_LP_QUAT then dmp_enable_lp_quat 1
        else dmp_enable_lp_quat 0) ;;
  _ <- (if has DMP_FEATURE_6X_LP_QUAT then dmp_enable_6x_lp_quat 1
        else dmp_enable_6x_lp_quat 0) ;;
  _ <- mpu_reset_fifo ;;
  let pl := 0 in
  let pl := if has DMP_FEATURE_SEND_RAW_ACCEL then pl + 6 else pl in
  let pl := if has DMP_FEATURE_SEND_ANY_GYRO then pl + 6 else pl in
  let pl := if has (Z.lor DMP_FEATURE_LP_QUAT DMP_FEATURE_6X_LP_QUAT)
            then pl + 16 else pl in
  modify (set_packet_len pl) ;;
  ret 0.

Definition dmp_set_interrupt_mode (mode : Z) : M Z :=
  let mode := uint8 mode in
  let regs_continuous := [216; 177; 185; 243; 139; 163; 145; 182; 9; 180; 217] in
  let regs_gesture := [218; 177; 185; 243; 139; 163; 145; 182; 218; 180; 218] in
  if mode =? DMP_INT_CONTINUOUS then
    mpu_write_mem CFG_FIFO_ON_EVENT 11 (Some regs_continuous)
  else if mode =? DMP_INT_GESTURE then
    mpu_write_mem CFG_FIFO_ON_EVENT 11 (Some regs_gesture)
  else ret (-1).

(** *** Callback registration (mpu9250.c:1260, 1271) *)

Definition set_imu_interrupt_func (func : func_id) : M Z :=
  modify (set_imu_interrupt_func_ptr func) ;;
  modify (set_interrupt_running 1) ;;
  ret 0.

Definition stop_imu_interrupt_func : M Z :=
  modify (set_interrupt_running 0) ;;
  ret 0.

(** *** Calibration files (mpu9250.c:1665, 1702, 1984, 2028) *)

Definition cal_path (file : string) : string := (CONFIG_DIRECTORY ++ file)%string.

(** [fopen(path, "r")]: the contents when the file exists. *)
Definition fopen_r (path : string) : M (option string) :=
  gets (fun w => lookup_file path (files (disk w))).

(** [fopen(path, "w")]: creates or truncates the file when the directory
    is there. *)
Definition fopen_w (path : string) : M bool :=
  fun w =>
    let d := disk w in
    if config_dir_present d then
      (true, set_disk (mkFs true (mkdir_works d) (fprintf_works d)
                            (store_file path EmptyString (files d))) w)
    else (false, w).

Definition mkdir_config : M unit :=
  modify (fun w =>
    let d := disk w in
    if mkdir_works d
    then set_disk (mkFs true (mkdir_works d) (fprintf_works d) (files d)) w
    else w).

(** [fprintf] on a file just opened for writing; [false]: negative return. *)
Definition fprintf_file (path text : string) : M bool :=
  fun w =>
    let d := disk w in
    if fprintf_works d then
      (true, set_disk (mkFs (config_dir_present d) (mkdir_works d) (fprintf_works d)
                            (store_file path text (files d))) w)
    else (false, w).

Definition write_gyro_offets_to_disk (offsets : vec3 Z) : M Z :=
  let file_path := cal_path GYRO_CAL_FILE in
  opened <- fopen_w file_path ;;
  opened <- (if opened : bool then ret true
             else mkdir_config ;; fopen_w file_path) ;;
  if negb opened then
    printf "could not open config directory\n" ;;
    printf CONFIG_DIRECTORY ;;
    printf "\n" ;;
    ret (-1)
  else
  let '(o0, o1, o2) := offsets in
  ok <- fprintf_file file_path (fmt_gyro_cal o0 o1 o2) ;;
  if negb ok then
    printf "Failed to write gyro offsets to file\n" ;; ret (-1)
  else ret 0.

(** The six bias bytes of lines 1729-1734. *)
Definition gyro_bias_bytes (x y z : Z) : list Z :=
  let hi v := Z.land (Z.shiftr (Z.quot (- v) 4) 8) 255 in
  let lo v := Z.land (Z.quot (- v) 4) 255 in
  [hi x; lo x; hi y; lo y; hi z; lo z].

Definition load_gyro_offets : M Z :=
  let file_path := cal_path GYRO_CAL_FILE in
  cal <- fopen_r file_path ;;
  match cal with
  | None =>
    printf "WARNING: no gyro calibration data found\n" ;;
    printf "Please run calibrate_gyro\n\n" ;;
    ret (-1)
  | Some text =>
    let '(x, y, z) := scan_gyro_cal (uninitialised_int E) text in
    r <- i2c_write_bytes XG_OFFSET_H (gyro_bias_bytes x y z) ;;
    if truthy r then
      printf "ERROR: failed to load gyro offsets into IMU register\n" ;; ret (-1)
    else ret 0
  end.

Context {FT : FloatText F}.

Definition write_mag_cal_to_disk (offsets scale : vec3 F) : M Z :=
  let file_path := cal_path MAG_CAL_FILE in
  opened <- fopen_w file_path ;;
  opened <- (if opened : bool then ret true
             else mkdir_config ;; fopen_w file_path) ;;
  if negb opened then
    printf "could not open config directory\n" ;;
    printf CONFIG_DIRECTORY ;;
    printf "\n" ;;
    ret (-1)
  else
  ok <- fprintf_file file_path (fmt_mag_cal offsets scale) ;;
  if negb ok then
    printf "Failed to write mag calibration to file\n" ;; ret (-1)
  else ret 0.

Definition load_mag_calibration : M Z :=
  let file_path := cal_path MAG_CAL_FILE in
  cal <- fopen_r file_path ;;
  match cal with
  | None =>
    printf "WARNING: no magnetometer calibration data found\n" ;;
    printf "Please run calibrate_mag\n\n" ;;
    ret (-1)
  | Some text =>
    let '(x, y, z, (sx, sy, sz)) := scan_mag_cal (uninitialised_float E) text in
    modify (set_mag_offsets (x, y, z)) ;;
    modify (set_mag_scales (sx, sy, sz)) ;;
    ret 0
  end.

(** *** initialize_imu_dmp (mpu9250.c:446) *)
Definition initialize_imu_dmp (conf : imu_config_t) : M Z :=
  if (DMP_MAX_RATE <? dmp_sample_rate conf) || (dmp_sample_rate conf <? DMP_MIN_RATE) then
    printf "ERROR:dmp_sample_rate must be between %d & %d\n" ;; ret (-1)
  else
  if negb (Z.rem DMP_MAX_RATE (dmp_sample_rate conf) =? 0) then
    printf "DMP sample rate must be a divisor of 200\n" ;;
    printf "acceptable values: 200,100,50,40,25,20,10,8,5,4 (HZ)\n" ;;
    ret (-1)
  else
  r <- call GpioExport (gpio_export_ret E) ;;
  if truthy r then printf "can't export gpio %d \n" ;; ret (-1) else
  emit GpioSetDir ;;
  emit GpioSetEdge ;;
  busy <- i2c_get_in_use_state ;;
  (if truthy busy then
     printf "WARNING: i2c bus claimed by another process\n" ;;
     printf "Continuing with initialize_imu_dmp() anyway\n"
   else ret tt) ;;
  r <- i2c_init ;;
  if truthy r then printf "initialize_imu_dmp failed at i2c_init\n" ;; ret (-1) else
  i2c_claim_bus ;;
  r <- reset_mpu9250 ;;
  if r <? 0 then
    printf "failed to reset_mpu9250()\n" ;; i2c_release_bus ;; ret (-1)
  else
  c <- i2c_read_byte WHO_AM_I_MPU9250 ;;
  match c with
  | None => printf "i2c_read_byte failed\n" ;; i2c_release_bus ;; ret (-1)
  | Some c =>
  if negb (uint8 c =? 113) then
    printf "mpu9250 WHO AM I register should return 0x71\n" ;;
    printf "WHO AM I returned: 0x%x\n" ;;
    i2c_release_bus ;; ret (-1)
  else
  r <- load_gyro_offets ;;
  if r <? 0 then
    printf "ERROR: failed to load gyro calibration offsets\n" ;;
    i2c_release_bus ;; ret (-1)
  else
  modify (set_dmp_en 1) ;;
  modify (set_config conf) ;;
  (fun w => let (d, l) := set_gyro_fsr E (gyro_fsr (config w)) (data w) (hw_log w) in
            (tt, set_hw_log l (set_data d w))) ;;
  (fun w => let (d, l) := set_accel_fsr E (accel_fsr (config w)) (data w) (hw_log w) in
            (tt, set_hw_log l (set_data d w))) ;;
  modify (fun w => set_hw_log (set_gyro_dlpf E (gyro_dlpf (config w)) (hw_log w)) w) ;;
  modify (fun w => set_hw_log (set_accel_dlpf E (accel_dlpf (config w)) (hw_log w)) w) ;;
  rate <- gets (fun w => dmp_sample_rate (config w)) ;;
  r <- mpu_set_sample_rate rate ;;
  if r <? 0 then
    printf "ERROR: setting IMU sample rate\n" ;; i2c_release_bus ;; ret (-1)
  else
  r <- (if truthy (enable_magnetometer conf) then initialize_magnetometer
        else (_ <- power_down_magnetometer ;; ret 0)) ;;
  if truthy r then
    printf "ERROR: failed to initialize_magnetometer\n" ;; i2c_release_bus ;; ret (-1)
  else
  r <- dmp_load_motion_driver_firmware ;;
  if r <? 0 then
    printf "failed to load DMP motion driver\n" ;; i2c_release_bus ;; ret (-1)
  else
  r <- dmp_set_orientation (orientation conf) ;;
  if r <? 0 then
    printf "ERROR: failed to set dmp orientation\n" ;; i2c_release_bus ;; ret (-1)
  else
  r <- dmp_enable_feature (Z.lor (Z.lor DMP_FEATURE_6X_LP_QUAT DMP_FEATURE_SEND_RAW_ACCEL)
                                  DMP_FEATURE_SEND_RAW_GYRO) ;;
  if r <? 0 then
    printf "ERROR: failed to enable DMP features\n" ;; i2c_release_bus ;; ret (-1)
  else
  r <- dmp_set_fifo_rate rate ;;
  if r <? 0 then
    printf "ERROR: failed to set DMP fifo rate\n" ;; i2c_release_bus ;; ret (-1)
  else
  r <- dmp_set_interrupt_mode DMP_INT_CONTINUOUS ;;
  if r <? 0 then
    printf "ERROR: failed to set DMP interrupt mode to continuous\n" ;;
    i2c_release_bus ;; ret (-1)
  else
  r <- mpu_set_dmp_state 1 ;;
  if r <? 0 then
    printf "ERROR: mpu_set_dmp_state(1) failed\n" ;; i2c_release_bus ;; ret (-1)
  else
  (if truthy (enable_magnetometer conf) then
     _ <- i2c_write_byte FIFO_EN FIFO_SLV0_EN ;;
     _ <- i2c_write_byte I2C_MST_CTRL 141 ;;
     _ <- i2c_write_byte I2C_SLV0_ADDR 140 ;;
     _ <- i2c_write_byte I2C_SLV0_REG AK8963_XOUT_L ;;
     _ <- i2c_write_byte I2C_SLV0_CTRL 135 ;;
     modify (fun w => set_packet_len (packet_len w + 7) w)
   else ret tt) ;;
  i2c_release_bus ;;
  modify (set_interrupt_running 1) ;;
  modify (set_shutdown_interrupt_thread 0) ;;
  _ <- set_imu_interrupt_func null_func ;;
  prio <- gets (fun w => dmp_interrupt_priority (config w)) ;;
  emit (SetSchedParam prio) ;;
  emit ThreadCreate ;;
  ret 0
  end.

(** *** The sampler thread (mpu9250.c:1201) *)

(** Calls the user thread can make while the sampler sleeps in [poll]. *)
Inductive user_call :=
| CallSetFunc (f : func_id)        (* set_imu_interrupt_func(f) *)
| CallStopFunc                     (* stop_imu_interrupt_func() *)
| CallShutdown.                    (* shutdown_interrupt_thread = 1 (power_off_imu) *)

Definition do_user_call (c : user_call) : M unit :=
  match c with
  | CallSetFunc f => _ <- set_imu_interrupt_func f ;; ret tt
  | CallStopFunc => _ <- stop_imu_interrupt_func ;; ret tt
  | CallShutdown => modify (set_shutdown_interrupt_thread 1)
  end.

Fixpoint do_user_calls (cs : list user_call) : M unit :=
  match cs with
  | [] => ret tt
  | c :: cs' => do_user_call c ;; do_user_calls cs'
  end.

(** One turn of the loop as the outside world shapes it: what
    [get_state()] answers at the loop test, what the user thread does
    during [poll], and whether [poll] reports the edge. *)
Record tick : Type := mkTick {
  tk_exiting : bool;
  tk_calls : list user_call;
  tk_pollpri : bool
}.

(** Lines 1220-1237, taken when [revents & POLLPRI]: timestamp, bus claim,
    FIFO read, bus release, outcome. *)
Definition handler_claim : M unit :=
  t <- call ReadClock (micros_since_epoch_ret E) ;;
  modify (set_last_interrupt_timestamp_micros t) ;;
  busy <- i2c_get_in_use_state ;;
  (if truthy busy then
     printf "WARNING: Something has claimed the I2C bus when an\n" ;;
     printf "IMU interrupt was received. Reading IMU anyway.\n"
   else ret tt) ;;
  i2c_claim_bus.

Definition handler_sample : M unit :=
  handler_claim ;;
  r <- read_dmp_fifo ;;
  i2c_release_bus ;;
  modify (set_last_read_successful (if r =? 0 then 1 else 0)).

(** Lines 1239-1245: the user function, unless this is the first run; the
    result is the local [first_run] afterwards. *)
Definition handler_notify (first_run : Z) : M Z :=
  if first_run =? 1 then ret 0
  else
    running <- gets (@interrupt_running F) ;;
    if truthy running then
      f <- gets (@imu_interrupt_func F) ;;
      emit (UserCallback f) ;;
      ret first_run
    else ret first_run.

Definition handler_edge (first_run : Z) : M Z :=
  handler_sample ;; handler_notify first_run.

(** The [while] loop over a finite schedule; [true]: the loop was left
    and the descriptor closed, [false]: the schedule ended first. *)
Fixpoint handler_loop (ticks : list tick) (first_run : Z) : M bool :=
  match ticks with
  | [] => ret false
  | t :: ticks' =>
    sd <- gets (@shutdown_interrupt_thread F) ;;
    if tk_exiting t || (sd =? 1) then
      emit GpioFdClose ;; ret true
    else
      emit Poll ;;
      do_user_calls (tk_calls t) ;;
      first_run' <- (if tk_pollpri t then handler_edge first_run else ret first_run) ;;
      handler_loop ticks' first_run'
  end.

Definition imu_interrupt_handler (ticks : list tick) : M bool :=
  fd <- call GpioFdOpen (gpio_fd_open_ret E) ;;
  if fd =? -1 then
    printf "ERROR: can't open IMU_INTERRUPT_PIN gpio fd\n" ;;
    printf "aborting imu_interrupt_handler\n" ;;
    ret true
  else
  _ <- mpu_reset_fifo ;;
  handler_loop ticks 1.

(** *** calibrate_mag_routine (mpu9250.c:2072) *)

(** The sampling loop (lines 2133-2155): [n] is how many of the 200 rows
    are still to be filled, [rows] the rows of [A] filled so far;
    returns [i] and the rows. *)
Fixpoint collect_mag (n : nat) (i : Z) (rows : list (vec3 F))
  : M (Z * list (vec3 F)) :=
  match n with
  | O => ret (i, rows)
  | S n' =>
    exiting <- gets (fun w => get_state_is_exiting E (hw_log w)) ;;
    if exiting : bool then ret (i, rows) else
    rd <- call ReadMagData (read_mag_data_ret E) ;;
    if fst rd <? 0 then
      printf "ERROR: failed to read magnetometer\n" ;; ret (i, rows)
    else
    let '(m0, m1, m2) := snd rd in
    if feqb m0 (f_of_int 0) && feqb m1 (f_of_int 0) && feqb m2 (f_of_int 0) then
      printf "ERROR: retreived all zeros from magnetometer\n" ;; ret (i, rows)
    else
    let i := i + 1 in
    (if Z.rem i 20 =? 0 then printf "keep spinning\n" else ret tt) ;;
    usleep (Z.quot 1000000 20) ;;
    collect_mag n' i (rows ++ [(m0, m1, m2)])
  end.

(** Lines 2178-2193: the sanity checks on the fitted ellipsoid. *)
Definition center_out_of_bounds (center : vec3 F) : bool :=
  let '(c0, c1, c2) := center in
  fltb (f_of_int 70) (fabs c0) || fltb (f_of_int 70) (fabs c1)
  || fltb (f_of_int 70) (fabs c2).

Definition lengths_out_of_bounds (lengths : vec3 F) : bool :=
  let '(l0, l1, l2) := lengths in
  fltb (f_of_int 140) l0 || fltb l0 (f_of_int 5)
  || fltb (f_of_int 140) l1 || fltb l1 (f_of_int 5)
  || fltb (f_of_int 140) l2 || fltb l2 (f_of_int 5).

(** Lines 2161-2207: from the end of sampling to the end. *)
Definition finish_mag_calibration (i : Z) (rows : list (vec3 F)) : M Z :=
  if i <? 200 then
    printf "exiting calibrate_mag_routine without saving new data\n" ;; ret (-1)
  else
  let '(r, center, lengths) := fitEllipsoid E rows in
  if r <? 0 then
    printf "failed to fit ellipsoid to magnetometer data\n" ;; ret (-1)
  else
  if center_out_of_bounds center then
    printf "ERROR: center of fitted ellipsoid out of bounds\n" ;; ret (-1)
  else
  if lengths_out_of_bounds lengths then
    printf "ERROR: length of fitted ellipsoid out of bounds\n" ;; ret (-1)
  else
  let '(l0, l1, l2) := lengths in
  let new_scale := (fdiv (f_of_int 70) l0, fdiv (f_of_int 70) l1,
                    fdiv (f_of_int 70) l2) in
  r <- write_mag_cal_to_disk center new_scale ;;
  if r <? 0 then ret (-1) else ret 0.

Definition calibrate_mag_routine : M Z :=
  busy <- i2c_get_in_use_state ;;
  if truthy busy then
    printf "i2c bus claimed by another process\n" ;;
    printf "aborting gyro calibration()\n" ;;
    ret (-1)
  else
  r <- i2c_init ;;
  if truthy r then printf "initialize_imu_dmp failed at i2c_init\n" ;; ret (-1) else
  i2c_claim_bus ;;
  r <- reset_mpu9250 ;;
  if r <? 0 then printf "ERROR: failed to reset MPU9250\n" ;; ret (-1) else
  c <- i2c_read_byte WHO_AM_I_MPU9250 ;;
  match c with
  | None =>
    printf "Reading WHO_AM_I_MPU9250 register failed\n" ;; i2c_release_bus ;; ret (-1)
  | Some c =>
  if negb (uint8 c =? 113) then
    printf "mpu9250 WHO AM I register should return 0x71\n" ;;
    printf "WHO AM I returned: 0x%x\n" ;;
    i2c_release_bus ;; ret (-1)
  else
  r <- initialize_magnetometer ;;
  if truthy r then
    printf "ERROR: failed to initialize_magnetometer\n" ;; i2c_release_bus ;; ret (-1)
  else
  modify (set_mag_offsets (f_of_int 0, f_of_int 0, f_of_int 0)) ;;
  modify (set_mag_scales (f_of_int 1, f_of_int 1, f_of_int 1)) ;;
  ir <- collect_mag 200 0 [] ;;
  _ <- power_off_imu ;;
  i2c_release_bus ;;
  finish_mag_calibration (fst ir) (snd ir)
  end.

End Driver.

(** ** IEEE 754 binary32 as an instance of the float interface *)

Module Binary32.
Definition prec : Z := 24.
Definition emax : Z := 128.

Definition of_int (z : Z) : spec_float := binary_normalize prec emax z 0 false.

(** [m * 2^e], rounded to nearest even. *)
Definition of_scaled (m e : Z) : spec_float := binary_normalize prec emax m e false.

(** [double] is binary64.  A binary32 number is a binary64 number of the
    same value, and [spec_float] holds both; the way back rounds to
    nearest even. *)
Definition dprec : Z := 53.
Definition demax : Z := 1024.

Definition to_single (x : spec_float) : spec_float :=
  match x with
  | S754_finite s m e => binary_round prec emax s m e
  | _ => x
  end.

#[export] Instance ops : FloatOps spec_float := {|
  f_of_int := of_int;
  fadd := SFadd prec emax;
  fsub := SFsub prec emax;
  fmul := SFmul prec emax;
  fdiv := SFdiv prec emax;
  fneg := SFopp;
  fabs := SFabs;
  feqb := SFeqb;
  fltb := SFltb;
  fleb := SFleb;
  dbl := spec_float;
  to_dbl := fun x => x;
  of_dbl := to_single;
  d_of_int := fun z => binary_normalize dprec demax z 0 false;
  dadd := SFadd dprec demax;
  dmul := SFmul dprec demax;
  ddiv := SFdiv dprec demax
|}.
End Binary32.

(** ** A bench set-up for running the driver

    One assignment of the header macros (register bits as in the MPU-9250
    register map, the limits of the DMP, a four-chunk firmware image) and a
    bus on which every transfer succeeds and every read returns zeros. *)
Module Bench.
Import Binary32.

Definition pi32 : spec_float := of_scaled 13176795 (-22).
Definition two_pi32 : spec_float := of_scaled 13176795 (-21).

#[export] Instance defs : mpu9250_defs spec_float := {|
  DMP_MAX_RATE := 200;
  DMP_MIN_RATE := 4;
  DMP_SAMPLE_RATE := 200;
  MPU6500_BANK_SIZE := 256;
  DMP_CODE_SIZE := 56;
  DMP_LOAD_CHUNK := 16;
  dmp_firmware := map (fun k => Z.of_nat k) (seq 0 56);
  dmp_start_addr := 1024;
  MAGNETOMETER_SATURATION := 8;
  MAG_RAW_TO_uT := of_scaled 4912 (-15);
  PI := pi32;
  TWO_PI := two_pi32;
  YAW_MIX_FACTOR := fun _ => 5;
  BIT_FIFO_RST := 4; BIT_DMP_RST := 8; BIT_DMP_EN := 128; BIT_FIFO_EN := 64;
  I2C_MST_EN := 32; BIT_DMP_INT_EN := 2; BIT_DATA_RDY_EN := 1;
  FIFO_SLV0_EN := 1; FIFO_EN_BIT := 64;
  LATCH_INT_EN := 32; INT_ANYRD_CLEAR := 16; ACTL_ACTIVE_LOW := 128; BYPASS_EN := 2;
  MAG_POWER_DN := 0; MAG_FUSE_ROM := 15; MSCALE_16 := 16; MAG_CONT_MES_2 := 6;
  AK8963_XOUT_L := 3; H_RESET := 128; MPU_SLEEP := 64;
  CONFIG_DIRECTORY := "/root/robot_config/";
  GYRO_CAL_FILE := "gyro.cal";
  MAG_CAL_FILE := "mag.cal"
|}.

#[export] Instance keys : dmp_map := {|
  FCFG_1 := 1062; FCFG_2 := 1066; FCFG_3 := 1088; FCFG_7 := 1073;
  D_0_22 := 534; D_0_104 := 104;
  CFG_6 := 2753; CFG_8 := 2718; CFG_15 := 2727; CFG_20 := 2224; CFG_27 := 2742;
  CFG_MOTION_BIAS := 1208; CFG_GYRO_RAW_DATA := 2722; CFG_ANDROID_ORIENT_INT := 1853;
  CFG_LP_QUAT := 2712; CFG_FIFO_ON_EVENT := 2690;
  DINA4C := 76; DINACD := 205; DINA6C := 108; DINA0C := 12; DINAC9 := 201; DINA2C := 44;
  DINA36 := 54; DINA56 := 86; DINA76 := 118; DINA26 := 38; DINA46 := 70; DINA66 := 102;
  DINAFE := 254; DINAF2 := 242; DINAAB := 171; DINAAA := 170; DINAF1 := 241; DINADF := 223;
  DINA20 := 32; DINA28 := 40; DINA30 := 48; DINA38 := 56;
  DINAC0 := 176; DINA80 := 128; DINAC2 := 178; DINA90 := 144;
  DINBC0 := 192; DINBC2 := 194; DINBC4 := 196; DINBC6 := 198;
  GYRO_SF := 46850825;
  DMP_FEATURE_TAP := 1; DMP_FEATURE_ANDROID_ORIENT := 2;
  DMP_FEATURE_LP_QUAT := 4; DMP_FEATURE_6X_LP_QUAT := 16; DMP_FEATURE_GYRO_CAL := 32;
  DMP_FEATURE_SEND_RAW_ACCEL := 64; DMP_FEATURE_SEND_RAW_GYRO := 128;
  DMP_FEATURE_SEND_CAL_GYRO := 256; DMP_FEATURE_SEND_ANY_GYRO := 384;
  DMP_INT_CONTINUOUS := 2; DMP_INT_GESTURE := 1
|}.

(** Two edges, with [stop_imu_interrupt_func] called while the sampler
    waits for the second. *)
Definition stopped_schedule : list tick :=
  [mkTick false [] true; mkTick false [CallStopFunc] true].

(** Three edges and a timeout in between, a user function (number 7)
    registered while the sampler waits for the first edge, then the
    program exiting. *)
Definition steady_schedule : list tick :=
  [mkTick false [CallSetFunc 7] true; mkTick false [] false;
   mkTick false [] true; mkTick false [] true; mkTick true [] false].

Definition zero3 : vec3 spec_float := (of_int 0, of_int 0, of_int 0).
Definition one3 : vec3 spec_float := (of_int 1, of_int 1, of_int 1).
Definition unit_quat : quat4 spec_float := (of_int 1, of_int 0, of_int 0, of_int 0).

(** The bytes of the latest write to the DMP memory window. *)
Definition last_mem_write (l : list event) : list Z :=
  fold_left (fun acc e => match e with
                          | I2cWriteBytes MPU6500_MEM_R_W vs => vs
                          | _ => acc
                          end) l [].

(** Every transfer succeeds; FIFO count and FIFO bytes are given; DMP
    memory reads back what was last written. *)
Definition env (count : Z) (fifo : list Z) : environment spec_float := {|
  i2c_get_in_use_state_ret := fun _ => 0;
  i2c_init_ret := fun _ => 0;
  i2c_write_ret := fun _ => 0;
  i2c_read_byte_ret := fun _ => Some 113;
  i2c_read_word_ret := fun _ => Some count;
  i2c_read_bytes_ret := fun l =>
    match last l I2cInit with
    | I2cReadBytes MPU6500_MEM_R_W n => (n, last_mem_write l)
    | I2cReadBytes _ n => (n, fifo)
    | _ => (0, [])
    end;
  gpio_export_ret := fun _ => 0;
  gpio_fd_open_ret := fun _ => 3;
  get_state_is_exiting := fun _ => false;
  micros_since_epoch_ret := fun l => Z.of_nat (List.length l);
  sched_get_priority_max_ret := 99;
  uninitialised_int := 0;
  uninitialised_float := of_int 0;
  normalizeQuaternion := fun q => q;
  quaternionToTaitBryan := fun _ => zero3;
  TaitBryanToQuaternion := fun _ => unit_quat;
  tilt_compensate := fun v _ => v;
  atan2f := fun _ _ => of_int 0;
  set_gyro_fsr := fun _ d l => (d, l);
  set_accel_fsr := fun _ d l => (d, l);
  set_gyro_dlpf := fun _ l => l;
  set_accel_dlpf := fun _ l => l;
  thread_join_timed_out := fun _ => false;
  read_mag_data_ret := fun _ => (0, one3);
  fitEllipsoid := fun _ => (0, zero3, (of_int 70, of_int 70, of_int 70))
|}.

(** The same bus, except that DMP memory reads back with its first byte
    off by one. *)
Definition corrupting_env (count : Z) (fifo : list Z) : environment spec_float :=
  let e := env count fifo in
  mkEnv (i2c_get_in_use_state_ret e) (i2c_init_ret e) (i2c_write_ret e)
        (i2c_read_byte_ret e) (i2c_read_word_ret e)
        (fun l =>
           match last l I2cInit with
           | I2cReadBytes MPU6500_MEM_R_W n =>
             (n, match last_mem_write l with
                 | b :: bs => (b + 1) :: bs
                 | [] => []
                 end)
           | _ => i2c_read_bytes_ret e l
           end)
        (gpio_export_ret e) (gpio_fd_open_ret e) (get_state_is_exiting e)
        (micros_since_epoch_ret e) (sched_get_priority_max_ret e)
        (uninitialised_int e) (uninitialised_float e)
        (normalizeQuaternion e) (quaternionToTaitBryan e) (TaitBryanToQuaternion e)
        (tilt_compensate e) (atan2f e)
        (set_gyro_fsr e) (set_accel_fsr e) (set_gyro_dlpf e) (set_accel_dlpf e)
        (thread_join_timed_out e) (read_mag_data_ret e) (fitEllipsoid e).

(** The bench with [atan2f] answering [a] whatever it is asked. *)
Definition heading_env (a : spec_float) : environment spec_float :=
  let e := env 35 [] in
  mkEnv (i2c_get_in_use_state_ret e) (i2c_init_ret e) (i2c_write_ret e)
        (i2c_read_byte_ret e) (i2c_read_word_ret e) (i2c_read_bytes_ret e)
        (gpio_export_ret e) (gpio_fd_open_ret e) (get_state_is_exiting e)
        (micros_since_epoch_ret e) (sched_get_priority_max_ret e)
        (uninitialised_int e) (uninitialised_float e)
        (normalizeQuaternion e) (quaternionToTaitBryan e) (TaitBryanToQuaternion e)
        (tilt_compensate e) (fun _ _ => a)
        (set_gyro_fsr e) (set_accel_fsr e) (set_gyro_dlpf e) (set_accel_dlpf e)
        (thread_join_timed_out e) (read_mag_data_ret e) (fitEllipsoid e).

Definition conf (mag rate : Z) : imu_config_t :=
  mkConfig 1 2 1 1 mag rate 136 5 99 1.

Definition sample0 : imu_data_t spec_float :=
  mkData zero3 zero3 one3 (of_int 21) (0, 0, 0) (0, 0, 0) (of_int 1) (of_int 1)
         unit_quat zero3 unit_quat zero3 (of_int 0).

Definition disk0 : filesys := mkFs true true true [].

(** A bench libc that writes a float as mantissa, [e], exponent. *)
Definition bench_fmt_f (x : spec_float) : string :=
  match x with
  | S754_finite s m e =>
    (fmt_d (if s then Z.neg m else Z.pos m) ++ "e" ++ fmt_d e)%string
  | S754_zero _ => "0e0"%string
  | S754_infinity _ => "inf"%string
  | S754_nan => "nan"%string
  end.

Definition bench_scan_f (text : string) : option (spec_float * string) :=
  match scan_d text with
  | Some (m, String c r) =>
    if Ascii.eqb c "e" then
      match scan_d r with
      | Some (e, rest) =>
        Some (match m with
              | Z0 => S754_zero false
              | Z.pos p => S754_finite false p e
              | Z.neg p => S754_finite true p e
              end, rest)
      | None => None
      end
    else None
  | _ => None
  end.

#[export] Instance text : FloatText spec_float := {|
  fmt_f := bench_fmt_f;
  scan_f := bench_scan_f
|}.

(** A 28-byte packet: quaternion (1<<30, 0, 0, 0), accelerometer
    (100, -100, 200), gyroscope (10, -10, 5). *)
Definition unit_packet : list Z :=
  [64; 0; 0; 0;  0; 0; 0; 0;  0; 0; 0; 0;  0; 0; 0; 0;
   0; 100; 255; 156; 0; 200;  0; 10; 255; 246; 0; 5].

(** A 35-byte packet: magnetometer reading (1, 2, 3), not saturated,
    followed by an all-zero quaternion, accelerometer and gyroscope. *)
Definition zero_quat_packet : list Z :=
  [1; 0; 2; 0; 3; 0; 0] ++ repeat 0 28.

(** The driver before bring-up, on a disk without calibration files. *)
Definition world_boot : world spec_float :=
  mkWorld (conf 0 0) 0 0 0 null_func 0
          one3 zero3 one3 sample0 0 0 0 1 (of_int 0) (of_int 0) 1 [] [] disk0.

(** The same with a gyro calibration file in place. *)
Definition world_boot_calibrated : world spec_float :=
  set_disk (mkFs true true true
              [("/root/robot_config/gyro.cal"%string, fmt_gyro_cal 12 (-8) 4)])
           world_boot.

(** The driver after a bring-up with or without magnetometer, before the
    first interrupt. *)
Definition world0 (mag : Z) : world spec_float :=
  mkWorld (conf mag 100) 0 1 (if mag =? 0 then 28 else 35) null_func 1
          one3 zero3 one3 sample0 0 0 0 1 (of_int 0) (of_int 0) 1 [] [] disk0.

(** The same in the middle of a run, the fused yaw last kept being [y]. *)
Definition world_yaw (y : spec_float) : world spec_float :=
  set_fusion_first_run 0 (set_lastYaw y (world0 1)).
End Bench.

(** ** Relations between the world before and after a step *)

(** Only the trace and the console differ between [w] and [w']. *)
Definition same_driver {F} (w w' : world F) : Prop :=
  w' = set_console (console w') (set_hw_log (hw_log w') w).

(** [m] relates every world to the one it leaves behind. *)
Definition keeps {F A} (R : world F -> world F -> Prop) (m : M F A) : Prop :=
  forall w, R w (after m w).

(** Calls of the user function and edges taken up, counted in a trace: each
    edge the sampler handles reads the clock once. *)
Definition is_callback (e : event) : bool :=
  match e with UserCallback _ => true | _ => false end.

Definition is_clock_read (e : event) : bool :=
  match e with ReadClock => true | _ => false end.

Definition callbacks (l : list event) : nat := List.length (filter is_callback l).
Definition edges_handled (l : list event) : nat := List.length (filter is_clock_read l).

(** Events that are neither. *)
Definition quiet_event (e : event) : bool :=
  negb (is_callback e) && negb (is_clock_read e).

(** What the sampler's bookkeeping sees is as before: the callback
    registration, the shutdown flag, and both counts. *)
Definition same_registration {F} (a b : world F) : Prop :=
  interrupt_running b = interrupt_running a /\
  imu_interrupt_func b = imu_interrupt_func a /\
  shutdown_interrupt_thread b = shutdown_interrupt_thread a /\
  callbacks (hw_log b) = callbacks (hw_log a) /\
  edges_handled (hw_log b) = edges_handled (hw_log a).

(** No [stop_imu_interrupt_func] in a schedule. *)
Definition is_stop (c : user_call) : bool :=
  match c with CallStopFunc => true | _ => false end.

Definition never_stopped (ticks : list tick) : Prop :=
  forall t, In t ticks -> existsb is_stop (tk_calls t) = false.

(** The disk is as before. *)
Definition same_disk {F} (a b : world F) : Prop := disk b = disk a.

(** The bounds of [calibrate_mag_routine] in words: the center exceeds 70
    on some axis; some length is above 140 or below 5. *)
Definition center_exceeds {F} `{FloatOps F} (center : vec3 F) : Prop :=
  let '(c0, c1, c2) := center in
  fltb (f_of_int 70) (fabs c0) = true \/ fltb (f_of_int 70) (fabs c1) = true \/
  fltb (f_of_int 70) (fabs c2) = true.

Definition length_outside {F} `{FloatOps F} (lengths : vec3 F) : Prop :=
  let '(l0, l1, l2) := lengths in
  (fltb (f_of_int 140) l0 = true \/ fltb l0 (f_of_int 5) = true) \/
  (fltb (f_of_int 140) l1 = true \/ fltb l1 (f_of_int 5) = true) \/
  (fltb (f_of_int 140) l2 = true \/ fltb l2 (f_of_int 5) = true).

(** Every result of [m] satisfies [P]. *)
Definition always {F A} (P : A -> Prop) (m : M F A) : Prop :=
  forall w, P (result m w).
(** * Verified properties *)

Unset Implicit Arguments.

(** Unfold the state-passing combinators and the transport primitives. *)
Ltac munfold :=
  cbv beta iota delta
    [bind gets ret modify call emit usleep printf
     i2c_read_word i2c_read_bytes i2c_read_byte i2c_write_byte i2c_write_bytes
     i2c_set_device_address i2c_claim_bus i2c_release_bus
     i2c_get_in_use_state i2c_init result after].

(** Projections of updated worlds and samples. *)
Ltac wsimpl :=
  cbn [fst snd
       config bypass_en dmp_en packet_len imu_interrupt_func interrupt_running
       mag_factory_adjust mag_offsets mag_scales data last_read_successful
       last_interrupt_timestamp_micros shutdown_interrupt_thread fifo_first_run
       lastDMPYaw lastYaw fusion_first_run hw_log console disk
       set_config set_bypass_en set_dmp_en set_packet_len set_imu_interrupt_func_ptr
       set_interrupt_running set_mag_factory_adjust set_mag_offsets set_mag_scales
       set_data set_last_read_successful set_last_interrupt_timestamp_micros
       set_shutdown_interrupt_thread set_fifo_first_run set_lastDMPYaw set_lastYaw
       set_fusion_first_run set_hw_log set_console set_disk
       accel gyro mag temp raw_gyro raw_accel accel_to_ms2 gyro_to_degs dmp_quat
       dmp_TaitBryan fused_quat fused_TaitBryan compass_heading
       d_set_accel d_set_gyro d_set_mag d_set_raw_gyro d_set_raw_accel d_set_dmp_quat
       d_set_dmp_TaitBryan d_set_fused_quat d_set_fused_TaitBryan d_set_compass_heading].

Ltac mrun := repeat (progress (munfold; wsimpl)).

(** ** Frames: what each step leaves alone *)

Section Keeps.
Context {F : Type}.
Variable R : world F -> world F -> Prop.
Hypothesis R_refl : forall w, R w w.
Hypothesis R_trans : forall w1 w2 w3, R w1 w2 -> R w2 w3 -> R w1 w3.

Lemma keeps_ret {A} (a : A) : keeps R (ret a).
Proof. intro w; apply R_refl. Qed.

Lemma keeps_gets {A} (f : world F -> A) : keeps R (gets f).
Proof. intro w; apply R_refl. Qed.

Lemma keeps_bind {A B} (m : M F A) (k : A -> M F B) :
  keeps R m -> (forall a, keeps R (k a)) -> keeps R (bind m k).
Proof.
  intros Hm Hk w. unfold after, bind.
  specialize (Hm w). unfold after in Hm.
  destruct (m w) as [a w1]; simpl in *.
  eapply R_trans; [exact Hm | apply Hk].
Qed.

Lemma keeps_modify (f : world F -> world F) :
  (forall w, R w (f w)) -> keeps R (modify f).
Proof. intros H w; apply H. Qed.

End Keeps.

Ltac keeps_step :=
  match goal with
  | |- keeps _ (bind _ _) => apply keeps_bind; [assumption | | intros ]
  | |- keeps _ (ret _) => apply keeps_ret; assumption
  | |- keeps _ (gets _) => apply keeps_gets; assumption
  | |- keeps _ (if ?b then _ else _) => destruct b
  | |- keeps _ (match ?x with _ => _ end) => destruct x
  | |- keeps _ (let '(_, _) := ?x in _) => destruct x
  end.

Section Frames.
Context {F : Type} {FO : FloatOps F} {D : mpu9250_defs F} {K : dmp_map}.
Variable E : environment F.
Variable R : world F -> world F -> Prop.
Variable quiet : event -> bool.
Hypothesis R_refl : forall w, R w w.
Hypothesis R_trans : forall w1 w2 w3, R w1 w2 -> R w2 w3 -> R w1 w3.
Hypothesis R_event :
  forall e w, quiet e = true -> R w (set_hw_log (hw_log w ++ [e]) w).
Hypothesis R_console : forall c w, R w (set_console c w).
Hypothesis R_data : forall d w, R w (set_data d w).
Hypothesis R_mag_scales : forall v w, R w (set_mag_scales v w).
Hypothesis R_fifo_first_run : forall v w, R w (set_fifo_first_run v w).
Hypothesis R_lastDMPYaw : forall v w, R w (set_lastDMPYaw v w).
Hypothesis R_lastYaw : forall v w, R w (set_lastYaw v w).
Hypothesis R_fusion_first_run : forall v w, R w (set_fusion_first_run v w).

Lemma keeps_call {A} e (f : list event -> A) : quiet e = true -> keeps R (call e f).
Proof. intros Hq w; apply R_event; exact Hq. Qed.

Lemma keeps_printf s : keeps R (printf s).
Proof. intro w; apply R_console. Qed.

Lemma keeps_warn s : keeps R (warn s).
Proof.
  unfold warn. repeat keeps_step; auto using keeps_printf.
Qed.

Ltac prim :=
  first [ apply keeps_call; assumption | apply keeps_printf | apply keeps_warn ].

Ltac open_lets :=
  repeat match goal with
         | |- context [match ?x with (_, _) => _ end] => destruct x
         end.

Ltac upd :=
  apply keeps_modify; intros; open_lets;
  first [ apply R_data | apply R_mag_scales | apply R_fifo_first_run
        | apply R_lastDMPYaw | apply R_lastYaw | apply R_fusion_first_run ].

Hypothesis quiet_write : forall r v, quiet (I2cWriteByte r v) = true.
Hypothesis quiet_usleep : forall us, quiet (Usleep us) = true.
Hypothesis quiet_read_word : forall r, quiet (I2cReadWord r) = true.
Hypothesis quiet_read_bytes : forall r n, quiet (I2cReadBytes r n) = true.
Hypothesis quiet_set_addr : forall a, quiet (I2cSetAddr a) = true.

Ltac bus :=
  apply keeps_call;
  first [ apply quiet_write | apply quiet_usleep | apply quiet_read_word
        | apply quiet_read_bytes | apply quiet_set_addr ].

Lemma keeps_mpu_reset_fifo : keeps R (mpu_reset_fifo E).
Proof.
  unfold mpu_reset_fifo, i2c_write_byte, usleep, emit.
  repeat (first [keeps_step | bus | prim]).
Qed.

Lemma keeps_fifo_count_phase : keeps R (fifo_count_phase E).
Proof.
  unfold fifo_count_phase, i2c_read_word, usleep, emit.
  repeat (first [keeps_step | bus | prim | apply keeps_mpu_reset_fifo]).
Qed.

Lemma keeps_fifo_offset_phase c : keeps R (fifo_offset_phase c).
Proof.
  unfold fifo_offset_phase.
  repeat (first [keeps_step | prim]).
Qed.

Lemma keeps_fifo_fetch_phase c : keeps R (fifo_fetch_phase E c).
Proof.
  unfold fifo_fetch_phase, i2c_read_bytes.
  repeat (first [keeps_step | bus | prim]).
Qed.

Lemma keeps_data_fusion : keeps R (data_fusion E).
Proof.
  unfold data_fusion.
  repeat (first [keeps_step | prim | upd]).
Qed.

Lemma keeps_fifo_mag_phase raw i : keeps R (fifo_mag_phase raw i).
Proof.
  unfold fifo_mag_phase.
  repeat (first [keeps_step | prim | upd]).
Qed.

Lemma keeps_fifo_motion_phase raw i b : keeps R (fifo_motion_phase E raw i b).
Proof.
  unfold fifo_motion_phase.
  repeat (first [keeps_step | prim | upd | apply keeps_data_fusion]).
Qed.

Lemma keeps_read_dmp_fifo : keeps R (read_dmp_fifo E).
Proof.
  unfold read_dmp_fifo, fifo_fetch_decode, fifo_decode_phase,
    i2c_set_device_address, emit.
  repeat (first [ keeps_step | bus | prim
                | apply keeps_fifo_count_phase | apply keeps_fifo_offset_phase
                | apply keeps_fifo_fetch_phase | apply keeps_fifo_mag_phase
                | apply keeps_fifo_motion_phase ]).
Qed.

End Frames.

(** ** The FIFO decoder *)

Section Decoder.
Context {F : Type} {FO : FloatOps F} {D : mpu9250_defs F} {K : dmp_map}.
Variable E : environment F.

(** [same_driver] is a frame in the sense of [keeps]. *)
Lemma same_driver_refl (w : world F) : same_driver w w.
Proof. destruct w; reflexivity. Qed.

Lemma same_driver_trans (w1 w2 w3 : world F) :
  same_driver w1 w2 -> same_driver w2 w3 -> same_driver w1 w3.
Proof.
  unfold same_driver; intros H12 H23.
  rewrite H23 at 1. rewrite H12 at 1. reflexivity.
Qed.

Lemma same_driver_log l (w : world F) : same_driver w (set_hw_log l w).
Proof. destruct w; reflexivity. Qed.

Lemma same_driver_console c (w : world F) : same_driver w (set_console c w).
Proof. destruct w; reflexivity. Qed.

Lemma same_driver_packet_len (w w' : world F) :
  same_driver w w' -> packet_len w' = packet_len w.
Proof. intros ->; reflexivity. Qed.

Lemma same_driver_data (w w' : world F) : same_driver w w' -> data w' = data w.
Proof. intros ->; reflexivity. Qed.

Ltac same_driver_frame :=
  first [ exact (@same_driver_refl) | exact (@same_driver_trans)
        | exact (@same_driver_console)
        | intros; apply same_driver_log
        | intros; reflexivity ].

Lemma warn_same s : keeps (F := F) same_driver (warn s).
Proof. apply keeps_warn; same_driver_frame. Qed.

Lemma mpu_reset_fifo_same : keeps same_driver (mpu_reset_fifo E).
Proof. apply (keeps_mpu_reset_fifo E same_driver (fun _ => true)); same_driver_frame. Qed.

Lemma fifo_count_phase_same w : same_driver w (after (fifo_count_phase E) w).
Proof.
  apply (keeps_fifo_count_phase E same_driver (fun _ => true)); same_driver_frame.
Qed.

(** What the count phase hands on is one packet or two. *)
Lemma fifo_count_phase_aligned w c w1 :
  fifo_count_phase E w = (Some c, w1) ->
  c = packet_len w \/ c = 2 * packet_len w.
Proof.
  unfold fifo_count_phase. mrun.
  match goal with |- context [option_map uint16 ?x] =>
    destruct (option_map uint16 x) as [c0|] end.
  2:{ destruct (warn _ _); discriminate. }
  destruct (Z.ltb_spec (2 * packet_len w) c0).
  { destruct (warn _ _) as [u w2]. destruct (warn _ w2) as [u' w3].
    destruct (mpu_reset_fifo E w3); discriminate. }
  destruct (Z.eqb_spec c0 (packet_len w)); cbn [negb andb].
  { intros [= <- _]; auto. }
  destruct (Z.ltb_spec c0 (2 * packet_len w)).
  2:{ intros [= <- _]; right; lia. }
  mrun.
  match goal with |- context [option_map uint16 ?x] =>
    destruct (option_map uint16 x) as [c1|] end.
  2:{ destruct (warn _ _); discriminate. }
  destruct (Z.eqb_spec c1 (packet_len w)); cbn [negb andb].
  { intros [= <- _]; auto. }
  destruct (Z.eqb_spec c1 (2 * packet_len w)); cbn [negb].
  { intros [= <- _]; auto. }
  match goal with |- context [if ?b then _ else _] => destruct b end.
  - destruct (mpu_reset_fifo E _); discriminate.
  - discriminate.
Qed.

(** C10: with [packet_len] 28 or 35, whenever [read_dmp_fifo] reaches the
    choice of the decode offset the FIFO count is exactly one or two
    packets, so the choice yields offset 0 or [packet_len] and its final
    "false interrupt" branch is never taken. *)
Theorem fifo_offset_fallback_unreachable w c w1 :
  packet_len w = FIFO_LEN_NO_MAG \/ packet_len w = FIFO_LEN_MAG ->
  fifo_count_phase E w = (Some c, w1) ->
  (c = packet_len w /\ result (fifo_offset_phase c) w1 = Some 0) \/
  (c = 2 * packet_len w /\ result (fifo_offset_phase c) w1 = Some (packet_len w)).
Proof.
  intros Hpl Hc.
  pose proof (fifo_count_phase_aligned _ _ _ Hc) as Hal.
  pose proof (fifo_count_phase_same w) as Hsame.
  unfold after in Hsame; rewrite Hc in Hsame; cbn [snd] in Hsame.
  apply same_driver_packet_len in Hsame.
  unfold fifo_offset_phase; mrun.
  rewrite Hsame.
  unfold FIFO_LEN_NO_MAG, FIFO_LEN_MAG in *.
  destruct Hal as [-> | ->].
  - left; split; [reflexivity|].
    destruct (Z.eqb_spec (packet_len w) (2 * packet_len w)); [lia|].
    destruct Hpl as [-> | ->]; reflexivity.
  - right; split; [reflexivity|].
    rewrite Z.eqb_refl.
    destruct (warn _ w1); reflexivity.
Qed.

(** *** Alignment *)

Lemma be_long_ext raw raw' i :
  (forall k, i <= k < i + 4 -> rawb raw k = rawb raw' k) ->
  be_long raw i = be_long raw' i.
Proof. intros H; unfold be_long; rewrite !H by lia; reflexivity. Qed.

Lemma be_int16_ext raw raw' i :
  (forall k, i <= k < i + 2 -> rawb raw k = rawb raw' k) ->
  be_int16 raw i = be_int16 raw' i.
Proof. intros H; unfold be_int16; rewrite !H by lia; reflexivity. Qed.

Lemma quat_rejected_ext raw raw' i :
  (forall k, i <= k < i + 16 -> rawb raw k = rawb raw' k) ->
  quat_rejected raw i = quat_rejected raw' i.
Proof.
  intros H; unfold quat_rejected, quat_mag_sq_of.
  rewrite (be_long_ext raw raw' (i + 0)) by (intros; apply H; lia).
  rewrite (be_long_ext raw raw' (i + 4)) by (intros; apply H; lia).
  rewrite (be_long_ext raw raw' (i + 8)) by (intros; apply H; lia).
  rewrite (be_long_ext raw raw' (i + 12)) by (intros; apply H; lia).
  reflexivity.
Qed.

(** The motion part of a packet is read from 28 bytes starting at [i]. *)
Lemma fifo_motion_phase_ext raw raw' i b :
  (forall k, i <= k < i + 28 -> rawb raw k = rawb raw' k) ->
  fifo_motion_phase E raw i b = fifo_motion_phase E raw' i b.
Proof.
  intros H; unfold fifo_motion_phase.
  rewrite (quat_rejected_ext raw raw' i) by (intros; apply H; lia).
  rewrite (be_long_ext raw raw' (i + 0)) by (intros; apply H; lia).
  rewrite (be_long_ext raw raw' (i + 4)) by (intros; apply H; lia).
  rewrite (be_long_ext raw raw' (i + 8)) by (intros; apply H; lia).
  rewrite (be_long_ext raw raw' (i + 12)) by (intros; apply H; lia).
  rewrite (be_int16_ext raw raw' (i + 16 + 0)) by (intros; apply H; lia).
  rewrite (be_int16_ext raw raw' (i + 16 + 2)) by (intros; apply H; lia).
  rewrite (be_int16_ext raw raw' (i + 16 + 4)) by (intros; apply H; lia).
  rewrite (be_int16_ext raw raw' (0 + (i + 16 + 6))) by (intros; apply H; lia).
  rewrite (be_int16_ext raw raw' (2 + (i + 16 + 6))) by (intros; apply H; lia).
  rewrite (be_int16_ext raw raw' (4 + (i + 16 + 6))) by (intros; apply H; lia).
  reflexivity.
Qed.

(** The magnetometer block is read from 7 bytes starting at [i]. *)
Lemma fifo_mag_phase_ext raw raw' i :
  (forall k, i <= k < i + 7 -> rawb raw k = rawb raw' k) ->
  fifo_mag_phase raw i = fifo_mag_phase raw' i.
Proof. intros H; unfold fifo_mag_phase; rewrite !H by lia; reflexivity. Qed.

(** Decoding at offset [i] reads the [packet_len] bytes from [i] on and
    nothing else. *)
Lemma fifo_decode_phase_ext raw raw' i w :
  packet_len w = FIFO_LEN_NO_MAG \/ packet_len w = FIFO_LEN_MAG ->
  (forall k, i <= k < i + packet_len w -> rawb raw k = rawb raw' k) ->
  fifo_decode_phase E raw i w = fifo_decode_phase E raw' i w.
Proof.
  unfold FIFO_LEN_NO_MAG, FIFO_LEN_MAG.
  intros Hpl H; unfold fifo_decode_phase; mrun; unfold FIFO_LEN_MAG.
  destruct Hpl as [Hpl | Hpl]; rewrite Hpl in *; cbn [Z.eqb Pos.eqb].
  - rewrite (fifo_motion_phase_ext raw raw' i) by (intros; apply H; lia).
    reflexivity.
  - rewrite (fifo_mag_phase_ext raw raw' i) by (intros; apply H; lia).
    destruct (fifo_mag_phase raw' i w) as [b w'].
    rewrite (fifo_motion_phase_ext raw raw' (i + 7)) by (intros; apply H; lia).
    reflexivity.
Qed.

Lemma mpu_reset_fifo_first_write w :
  exists l, hw_log (after (mpu_reset_fifo E) w) = hw_log w ++ I2cWriteByte INT_ENABLE 0 :: l.
Proof.
  assert (Hgrow : forall (m : M F Z) w1 l1,
             (hw_log w1 = hw_log w ++ I2cWriteByte INT_ENABLE 0 :: l1) ->
             keeps (fun a b => exists l, hw_log b = hw_log a ++ l) m ->
             exists l, hw_log (after m w1) = hw_log w ++ I2cWriteByte INT_ENABLE 0 :: l).
  { intros m w1 l1 H1 Hm. destruct (Hm w1) as [l2 H2].
    exists (l1 ++ l2). rewrite H2, H1, <- app_assoc. reflexivity. }
  unfold mpu_reset_fifo.
  unfold bind at 1. unfold i2c_write_byte at 1, call at 1. unfold after. cbn [fst snd uint8].
  change (0 mod 256) with 0.
  match goal with
  | |- exists l, hw_log (snd ((if ?b then ?m1 else ?m2) ?w1)) = _ =>
    change (exists l, hw_log (after (if b then m1 else m2) w1) = hw_log w ++ I2cWriteByte INT_ENABLE 0 :: l);
    apply (Hgrow (if b then m1 else m2) w1 [])
  end.
  - reflexivity.
  - assert (Hr : forall a : world F, exists l, hw_log a = hw_log a ++ l)
      by (intro a; exists []; rewrite app_nil_r; reflexivity).
    assert (Ht : forall a b c : world F,
               (exists l, hw_log b = hw_log a ++ l) ->
               (exists l, hw_log c = hw_log b ++ l) ->
               exists l, hw_log c = hw_log a ++ l).
    { intros a b c [l1 H1] [l2 H2]. exists (l1 ++ l2).
      rewrite H2, H1, <- app_assoc; reflexivity. }
    assert (Hc : forall A e (f : list event -> A),
               keeps (fun a b : world F => exists l, hw_log b = hw_log a ++ l) (call e f)).
    { intros A e f a. exists [e]. reflexivity. }
    unfold i2c_write_byte, usleep, emit.
    repeat (first [keeps_step | apply Hc]).
Qed.


End Decoder.

Import Binary32 Bench.

(** The count phase of a bench run with one packet waiting. *)
Lemma fifo_offset_fallback_unreachable_witness :
  (28 = 28 /\ result (fifo_offset_phase 28)
                (after (fifo_count_phase (env 28 [])) (world0 0)) = Some 0) \/
  (28 = 2 * 28 /\ result (fifo_offset_phase 28)
                (after (fifo_count_phase (env 28 [])) (world0 0)) = Some 28).
Proof.
  apply (@fifo_offset_fallback_unreachable spec_float defs (env 28 []) (world0 0) 28
           (after (fifo_count_phase (env 28 [])) (world0 0))).
  - left; reflexivity.
  - reflexivity.
Defined.


(** *** Rejected quaternions *)

Section Rejection.
Context {F : Type} {FO : FloatOps F} {D : mpu9250_defs F} {K : dmp_map}.
Variable E : environment F.

Lemma d_set_mag_self (d : imu_data_t F) : d = d_set_mag (mag d) d.
Proof. destruct d; reflexivity. Qed.

(** A packet whose quaternion fails the magnitude check makes the decode
    return -1 and leaves every field of the sample but [mag] as it was. *)
Lemma quat_reject_keeps_motion_fields raw i w :
  quat_rejected raw (if packet_len w =? FIFO_LEN_MAG then i + 7 else i) = true ->
  result (fifo_decode_phase E raw i) w = -1 /\
  data (after (fifo_decode_phase E raw i) w) =
  d_set_mag (mag (data (after (fifo_decode_phase E raw i) w))) (data w).
Proof.
  intros Hrej. unfold fifo_decode_phase. mrun.
  destruct (packet_len w =? FIFO_LEN_MAG).
  - assert (Hmag : forall w1, snd (fifo_mag_phase raw i w) = w1 ->
               data w1 = d_set_mag (mag (data w1)) (data w)).
    { intros w1 <-. unfold fifo_mag_phase. mrun.
      destruct (truthy _); [wsimpl; apply d_set_mag_self|].
      destruct (_ || _); [|wsimpl; apply d_set_mag_self].
      destruct (mag_factory_adjust w) as [[a0 a1] a2].
      destruct (mag_scales w) as [[s0 s1] s2]. wsimpl.
      destruct (mag_offsets w) as [[o0 o1] o2]. wsimpl.
      reflexivity. }
    destruct (fifo_mag_phase raw i w) as [b w1]. specialize (Hmag w1 eq_refl).
    unfold fifo_motion_phase. rewrite Hrej. mrun.
    unfold warn. mrun. destruct (truthy _); wsimpl; split; auto.
  - unfold fifo_motion_phase. rewrite Hrej. mrun.
    unfold warn. mrun. destruct (truthy _); wsimpl; split; auto;
      apply d_set_mag_self.
Qed.

End Rejection.

(** C1 fails on the code: with the magnetometer in the FIFO (35-byte
    packets), a packet whose quaternion is rejected has already had its
    magnetometer reading stored.  On the bench, the packet
    [zero_quat_packet] makes [read_dmp_fifo] return -1 with the quaternion
    check failed, the sample's [mag] overwritten, and every other field as
    before. *)
Theorem quat_reject_overwrites_mag :
  let E := env 35 zero_quat_packet in
  let w := world0 1 in
  let w' := after (read_dmp_fifo E) w in
  quat_rejected zero_quat_packet 7 = true /\
  result (read_dmp_fifo E) w = -1 /\
  mag (data w') <> mag (data w) /\
  data w' = d_set_mag (mag (data w')) (data w).
Proof.
  cbv zeta. split; [reflexivity|]. split; [vm_compute; reflexivity|].
  split; [vm_compute; discriminate | vm_compute; reflexivity].
Qed.

(** ** Bring-up *)

Section BringUp.
Context {F : Type} {FO : FloatOps F} {D : mpu9250_defs F} {K : dmp_map}.
Variable E : environment F.

Lemma uint8_small z : 0 <= z < 256 -> uint8 z = z.
Proof. intros; unfold uint8; apply Z.mod_small; assumption. Qed.

Lemma uint16_small z : 0 <= z < 65536 -> uint16 z = z.
Proof. intros; unfold uint16; apply Z.mod_small; assumption. Qed.

Lemma divider_range r : 4 <= r <= 1000 -> 0 <= Z.quot 1000 r - 1 < 256.
Proof.
  intros Hr. rewrite Z.quot_div_nonneg by lia.
  assert (1 <= 1000 / r) by (apply Z.div_le_lower_bound; lia).
  assert (1000 / r <= 250) by (apply Z.div_le_upper_bound; lia).
  lia.
Qed.

(** What [mpu_set_sample_rate] writes for an accepted rate. *)
Lemma mpu_set_sample_rate_writes r w :
  4 <= r <= 1000 ->
  hw_log (after (mpu_set_sample_rate E r) w) =
  hw_log w ++ [I2cWriteByte SMPLRT_DIV (1000 / r - 1)].
Proof.
  intros Hr. unfold mpu_set_sample_rate.
  destruct (Z.ltb_spec 1000 r); [lia|]. destruct (Z.ltb_spec r 4); [lia|].
  cbn [orb]. mrun.
  pose proof (divider_range r Hr) as Hd.
  rewrite !uint8_small by (rewrite ?uint8_small; lia).
  rewrite Z.quot_div_nonneg by lia.
  destruct (truthy _); reflexivity.
Qed.

(** The first thing [dmp_set_fifo_rate] does for an accepted rate. *)
Lemma dmp_set_fifo_rate_writes r w :
  4 <= r <= 1000 -> r <= DMP_SAMPLE_RATE ->
  exists l, hw_log (after (dmp_set_fifo_rate E r) w) =
            hw_log w ++ I2cWriteByte SMPLRT_DIV (1000 / r - 1) :: l.
Proof.
  intros Hr Hmax. unfold dmp_set_fifo_rate.
  rewrite (uint16_small r) by lia.
  destruct (Z.ltb_spec DMP_SAMPLE_RATE r); [lia|].
  pose proof (divider_range r Hr) as Hd.
  unfold bind at 1. unfold i2c_write_byte at 1, call at 1.
  rewrite uint16_small by lia. rewrite uint8_small by lia.
  rewrite Z.quot_div_nonneg by lia. unfold after.
  set (w1 := set_hw_log _ w).
  assert (Hgrow : forall m : M F Z, keeps (fun a b => exists l, hw_log b = hw_log a ++ l) m ->
             exists l, hw_log (snd (m w1)) =
                       hw_log w ++ I2cWriteByte SMPLRT_DIV (1000 / r - 1) :: l).
  { intros m Hm. destruct (Hm w1) as [l Hl]. exists l.
    unfold after in Hl. rewrite Hl. unfold w1. wsimpl.
    rewrite <- app_assoc. reflexivity. }
  apply Hgrow.
  assert (Hr0 : forall a : world F, exists l, hw_log a = hw_log a ++ l)
    by (intro a; exists []; rewrite app_nil_r; reflexivity).
  assert (Ht : forall a b c : world F,
             (exists l, hw_log b = hw_log a ++ l) ->
             (exists l, hw_log c = hw_log b ++ l) ->
             exists l, hw_log c = hw_log a ++ l).
  { intros a b c [l1 H1] [l2 H2]. exists (l1 ++ l2).
    rewrite H2, H1, <- app_assoc; reflexivity. }
  assert (Hc : forall A e (f : list event -> A),
             keeps (fun a b : world F => exists l, hw_log b = hw_log a ++ l) (call e f)).
  { intros A e f a. exists [e]. reflexivity. }
  assert (Hp : forall s,
             keeps (fun a b : world F => exists l, hw_log b = hw_log a ++ l) (printf s)).
  { intros s a. exists []. unfold printf; mrun. rewrite app_nil_r; reflexivity. }
  unfold mpu_write_mem, i2c_write_bytes.
  repeat (first [keeps_step | apply Hc | apply Hp]).
Qed.

(** A rejected configuration leaves everything but the console alone. *)
Lemma bring_up_rejects_rate conf w :
  DMP_MAX_RATE = 200 -> 0 < DMP_MIN_RATE ->
  ~ (dmp_sample_rate conf | 200) ->
  result (initialize_imu_dmp E conf) w = -1 /\
  exists c, after (initialize_imu_dmp E conf) w = set_console c w.
Proof.
  intros Hmax Hmin Hdiv. unfold initialize_imu_dmp. rewrite Hmax.
  destruct ((200 <? dmp_sample_rate conf) || (dmp_sample_rate conf <? DMP_MIN_RATE)) eqn:Hrange.
  - mrun. split; [reflexivity | eexists; reflexivity].
  - apply orb_false_iff in Hrange. destruct Hrange as [H1 H2].
    apply Z.ltb_ge in H1, H2.
    destruct (Z.eqb_spec (Z.rem 200 (dmp_sample_rate conf)) 0) as [Hrem | Hrem].
    + exfalso. apply Hdiv. apply Z.rem_divide; [lia | exact Hrem].
    + cbn [negb]. mrun. split; [reflexivity | eexists; reflexivity].
Qed.


End BringUp.



(** C4 fails on the code: on a disk without the gyro calibration file, with
    every bus transfer succeeding and a valid configuration, bring-up
    prints the warning and then gives up with -1. *)
Theorem missing_gyro_file_aborts_bring_up :
  let r := initialize_imu_dmp (env 0 []) (conf 0 100) world_boot in
  lookup_file (cal_path GYRO_CAL_FILE) (files (disk world_boot)) = None /\
  fst r = -1 /\
  console (snd r) =
    ["WARNING: no gyro calibration data found\n";
     "Please run calibrate_gyro\n\n";
     "ERROR: failed to load gyro calibration offsets\n"]%string /\
  fst (initialize_imu_dmp (env 0 []) (conf 0 100) world_boot_calibrated) = 0.
Proof.
  cbv zeta. split; [reflexivity|]. split; [vm_compute; reflexivity|].
  split; vm_compute; reflexivity.
Qed.

(** ** Firmware upload *)

Section Firmware.
Context {F : Type} {FO : FloatOps F} {D : mpu9250_defs F} {K : dmp_map}.
Variable E : environment F.

(** A write that would run past the end of the bank is refused before the
    bus is touched. *)
Lemma mpu_write_mem_bank_check mem_addr length data w :
  MPU6500_BANK_SIZE < uint8 (Z.land mem_addr 255) + length ->
  result (mpu_write_mem E mem_addr length data) w = -1 /\
  hw_log (after (mpu_write_mem E mem_addr length data) w) = hw_log w.
Proof.
  intros Hcross. unfold mpu_write_mem. destruct data as [bytes|].
  - destruct (Z.ltb_spec MPU6500_BANK_SIZE (uint8 (Z.land mem_addr 255) + length)); [|lia].
    mrun. split; reflexivity.
  - mrun. split; reflexivity.
Qed.

(** One round of the upload loop, spelled out. *)
Lemma load_chunks_round n ii w :
  load_chunks E (S n) ii w =
  let fw := skipn (Z.to_nat ii) dmp_firmware in
  let wr := mpu_write_mem E ii (this_write_at ii) (Some fw) w in
  if truthy (fst wr) then
    (Some (-1), after (printf "dmp firmware write failed\n") (snd wr))
  else
    let rd := mpu_read_mem E ii (this_write_at ii) (snd wr) in
    if truthy (fst (fst rd)) then
      (Some (-1), after (printf "dmp firmware read failed\n") (snd rd))
    else if memcmp_eq fw (snd (fst rd)) (this_write_at ii) then
      load_chunks E n (ii + this_write_at ii) (snd rd)
    else
      (Some (-2), after (printf "dmp firmware write corrupted\n") (snd rd)).
Proof.
  cbn [load_chunks]. cbv zeta. unfold bind at 1.
  destruct (mpu_write_mem E ii (this_write_at ii) _ w) as [r w1]. cbn [fst snd].
  destruct (truthy r); [reflexivity|].
  unfold bind at 1.
  destruct (mpu_read_mem E ii (this_write_at ii) w1) as [[r2 cur] w2]. cbn [fst snd].
  destruct (truthy r2); [reflexivity|].
  destruct (memcmp_eq _ cur _); reflexivity.
Qed.

(** C5: a DMP memory write whose offset within the bank plus length exceeds
    the bank size returns -1 without any bus transaction; and in the
    firmware upload a chunk whose read-back differs from what was written
    ends the upload at once with -2, where a failed write or read-back
    gives -1, and the upload as a whole returns that code with nothing
    further sent. *)
Theorem firmware_write_checks :
  (forall mem_addr length data w,
     MPU6500_BANK_SIZE < uint8 (Z.land mem_addr 255) + length ->
     result (mpu_write_mem E mem_addr length data) w = -1 /\
     hw_log (after (mpu_write_mem E mem_addr length data) w) = hw_log w) /\
  (forall n ii w,
     let fw := skipn (Z.to_nat ii) dmp_firmware in
     let wr := mpu_write_mem E ii (this_write_at ii) (Some fw) w in
     let rd := mpu_read_mem E ii (this_write_at ii) (snd wr) in
     (fst wr <> 0 -> result (load_chunks E (S n) ii) w = Some (-1)) /\
     (fst wr = 0 -> fst (fst rd) <> 0 ->
        result (load_chunks E (S n) ii) w = Some (-1)) /\
     (fst wr = 0 -> fst (fst rd) = 0 ->
        memcmp_eq fw (snd (fst rd)) (this_write_at ii) = false ->
        load_chunks E (S n) ii w =
          (Some (-2), after (printf "dmp firmware write corrupted\n") (snd rd))) /\
     (fst wr = 0 -> fst (fst rd) = 0 ->
        memcmp_eq fw (snd (fst rd)) (this_write_at ii) = true ->
        load_chunks E (S n) ii w =
          load_chunks E n (ii + this_write_at ii) (snd rd))) /\
  (forall w code w',
     load_chunks E firmware_chunks 0 (after (i2c_set_device_address IMU_ADDR) w)
       = (Some code, w') ->
     dmp_load_motion_driver_firmware E w = (code, w')) /\
  -2 <> -1.
Proof.
  split; [exact mpu_write_mem_bank_check|]. split; [| split; [| discriminate]].
  - intros n ii w fw wr rd. subst fw wr rd.
    unfold result. rewrite load_chunks_round. cbv zeta. unfold truthy.
    split; [| split; [| split]].
    + intros H. apply Z.eqb_neq in H. rewrite H. reflexivity.
    + intros H1 H2. rewrite H1. cbn [Z.eqb negb].
      apply Z.eqb_neq in H2. rewrite H2. reflexivity.
    + intros H1 H2 H3. rewrite H1, H2, H3. reflexivity.
    + intros H1 H2 H3. rewrite H1, H2, H3. reflexivity.
  - intros w code w' H. unfold dmp_load_motion_driver_firmware.
    unfold bind at 1. unfold after in H.
    destruct (i2c_set_device_address IMU_ADDR w) as [u w1]. cbn [snd] in H.
    unfold bind at 1. rewrite H. reflexivity.
Qed.

End Firmware.

(** ** Calibration files *)

Lemma span_digits_uint d rest :
  ends_number rest ->
  span_digits (NilEmpty.string_of_uint d ++ rest) = (NilEmpty.string_of_uint d, rest).
Proof.
  intros Hrest. induction d; cbn [NilEmpty.string_of_uint String.append span_digits];
    try (rewrite IHd; reflexivity).
  destruct rest as [|c r]; [reflexivity|].
  cbn [span_digits]. cbn in Hrest. rewrite Hrest. reflexivity.
Qed.

Lemma uint_digits_nonempty d :
  d <> Decimal.Nil ->
  exists c s, NilEmpty.string_of_uint d = String c s /\ is_digit c = true.
Proof.
  destruct d; intros H; try contradiction;
    cbn [NilEmpty.string_of_uint]; do 2 eexists; split; reflexivity.
Qed.

Lemma digit_not_special c :
  is_digit c = true ->
  is_space c = false /\ Ascii.eqb c "-" = false /\ Ascii.eqb c "+" = false.
Proof.
  destruct c as [[|] [|] [|] [|] [|] [|] [|] [|]]; cbn; intros H;
    try discriminate; repeat split.
Qed.

Lemma scan_d_digit c s :
  is_digit c = true ->
  scan_d (String c s) =
  let '(ds, rest) := span_digits (String c s) in
  match ds with
  | EmptyString => None
  | _ => option_map (fun d => (Z.of_int d, rest)) (NilZero.int_of_string ds)
  end.
Proof.
  intros Hc. destruct (digit_not_special c Hc) as (H1 & H2 & H3).
  unfold scan_d. cbn [skip_space]. rewrite H1, H2, H3. reflexivity.
Qed.

(** [%d] reads back what [%d] printed. *)
Lemma scan_d_fmt_d z rest :
  ends_number rest -> scan_d (fmt_d z ++ rest) = Some (z, rest).
Proof.
  intros Hrest.
  assert (Hpos : forall d, d <> Decimal.Nil ->
            scan_d (NilEmpty.string_of_uint d ++ rest) =
            option_map (fun i => (Z.of_int i, rest))
                       (NilZero.int_of_string (NilEmpty.string_of_uint d))).
  { intros d Hd. destruct (uint_digits_nonempty d Hd) as (c & s & Hs & Hc).
    rewrite Hs at 1. cbn [String.append]. rewrite scan_d_digit by assumption.
    change (String c (s ++ rest)) with (String c s ++ rest)%string. rewrite <- Hs.
    rewrite span_digits_uint by assumption. rewrite Hs. reflexivity. }
  assert (Hneg : forall d, d <> Decimal.Nil ->
            scan_d (String "-" (NilEmpty.string_of_uint d) ++ rest) =
            option_map (fun i => (Z.of_int i, rest))
                       (NilZero.int_of_string (String "-" (NilEmpty.string_of_uint d)))).
  { intros d Hd. destruct (uint_digits_nonempty d Hd) as (c & s & Hs & Hc).
    unfold scan_d. cbn [String.append skip_space].
    change (is_space "-") with false. cbv iota.
    change (Ascii.eqb "-" "-") with true. cbv iota beta.
    rewrite span_digits_uint by assumption. rewrite Hs. reflexivity. }
  assert (Hnil : forall d, d <> Decimal.Nil ->
            NilZero.string_of_uint d = NilEmpty.string_of_uint d).
  { intros d Hd; destruct d; try reflexivity; contradiction. }
  unfold fmt_d. destruct z as [|p|p]; cbn [Z.to_int NilZero.string_of_int].
  - rewrite Hnil by discriminate.
    rewrite (Hpos (Decimal.D0 Decimal.Nil)) by discriminate. reflexivity.
  - pose proof (Unsigned.to_uint_nonnil p) as Hp.
    rewrite Hnil by assumption. rewrite Hpos by assumption.
    rewrite <- Hnil by assumption.
    change (NilZero.string_of_uint (Pos.to_uint p))
      with (NilZero.string_of_int (Decimal.Pos (Pos.to_uint p))).
    rewrite NilZero.isi; [| intros [= H]; contradiction | discriminate].
    cbn [option_map]. f_equal. f_equal.
    exact (DecimalZ.of_to (Z.pos p)).
  - pose proof (Unsigned.to_uint_nonnil p) as Hp.
    rewrite Hnil by assumption. rewrite Hneg by assumption.
    rewrite <- Hnil by assumption.
    change (String "-" (NilZero.string_of_uint (Pos.to_uint p)))
      with (NilZero.string_of_int (Decimal.Neg (Pos.to_uint p))).
    rewrite NilZero.isi; [| discriminate | intros [= H]; contradiction].
    cbn [option_map]. f_equal. f_equal.
    exact (DecimalZ.of_to (Z.neg p)).
Qed.

(** A printed number does not start with white space. *)
Lemma skip_space_fmt_d z rest : skip_space (fmt_d z ++ rest) = (fmt_d z ++ rest)%string.
Proof.
  assert (Hd : forall d, d <> Decimal.Nil ->
            skip_space (NilEmpty.string_of_uint d ++ rest) =
            (NilEmpty.string_of_uint d ++ rest)%string).
  { intros d Hd. destruct (uint_digits_nonempty d Hd) as (c & s & Hs & Hc).
    destruct (digit_not_special c Hc) as (H1 & _).
    rewrite Hs. cbn [String.append skip_space]. rewrite H1. reflexivity. }
  unfold fmt_d. destruct z as [|p|p]; cbn [Z.to_int NilZero.string_of_int].
  - reflexivity.
  - pose proof (Unsigned.to_uint_nonnil p) as Hp.
    destruct (Pos.to_uint p) eqn:Hu; try contradiction; apply (Hd _); discriminate.
  - reflexivity.
Qed.

Lemma skip_space_nl s : skip_space (nl ++ s) = skip_space s.
Proof. reflexivity. Qed.

Lemma ends_number_nl s : ends_number (nl ++ s).
Proof. reflexivity. Qed.

(** The gyro file reads back as written. *)
Lemma scan_gyro_cal_fmt junk x y z :
  scan_gyro_cal junk (fmt_gyro_cal x y z) = (x, y, z).
Proof.
  unfold scan_gyro_cal, fmt_gyro_cal.
  rewrite scan_d_fmt_d by apply ends_number_nl.
  rewrite skip_space_nl, skip_space_fmt_d.
  rewrite scan_d_fmt_d by apply ends_number_nl.
  rewrite skip_space_nl, skip_space_fmt_d.
  rewrite scan_d_fmt_d by apply ends_number_nl.
  reflexivity.
Qed.

Section Persistence.
Context {F : Type} {D : mpu9250_defs F} {FT : FloatText F}.
Variable E : environment F.

Lemma lookup_store_file p c l : lookup_file p (store_file p c l) = Some c.
Proof. unfold store_file; cbn [lookup_file]. rewrite String.eqb_refl; reflexivity. Qed.

(** A successful write leaves exactly the formatted text in the file. *)
Lemma write_gyro_offets_stores offsets w w' :
  write_gyro_offets_to_disk offsets w = (0, w') ->
  lookup_file (cal_path GYRO_CAL_FILE) (files (disk w')) =
  Some (fmt_gyro_cal (fst (fst offsets)) (snd (fst offsets)) (snd offsets)) /\
  hw_log w' = hw_log w.
Proof.
  destruct offsets as [[o0 o1] o2].
  unfold write_gyro_offets_to_disk, fopen_w, mkdir_config, fprintf_file. mrun.
  destruct (config_dir_present (disk w)) eqn:Hdir; mrun.
  - destruct (fprintf_works (disk w)); mrun; intros [= <-]; wsimpl.
    cbn [files]. rewrite lookup_store_file. split; reflexivity.
  - destruct (mkdir_works (disk w)) eqn:Hmk; mrun.
    + cbn [config_dir_present]. mrun. cbn [fprintf_works].
      destruct (fprintf_works (disk w)); mrun; intros [= <-]; wsimpl.
      cbn [files]. rewrite lookup_store_file. split; reflexivity.
    + rewrite Hdir. mrun. intros [=].
Qed.

Lemma write_mag_cal_stores offsets scale w w' :
  write_mag_cal_to_disk offsets scale w = (0, w') ->
  lookup_file (cal_path MAG_CAL_FILE) (files (disk w')) =
  Some (fmt_mag_cal offsets scale).
Proof.
  unfold write_mag_cal_to_disk, fopen_w, mkdir_config, fprintf_file. mrun.
  destruct (config_dir_present (disk w)) eqn:Hdir; mrun.
  - destruct (fprintf_works (disk w)); mrun; intros [= <-]; wsimpl.
    cbn [files]. rewrite lookup_store_file. reflexivity.
  - destruct (mkdir_works (disk w)) eqn:Hmk; mrun.
    + cbn [config_dir_present]. mrun. cbn [fprintf_works].
      destruct (fprintf_works (disk w)); mrun; intros [= <-]; wsimpl.
      cbn [files]. rewrite lookup_store_file. reflexivity.
    + rewrite Hdir. mrun. intros [=].
Qed.

(** Six [%f] conversions read six lines back, each value close to the one
    printed. *)
Lemma scan_mag_cal_fmt (close : F -> F -> Prop) junk o0 o1 o2 s0 s1 s2 :
  (forall x, In x [o0; o1; o2; s0; s1; s2] -> text_faithful close x) ->
  exists o0' o1' o2' s0' s1' s2',
    scan_mag_cal junk (fmt_mag_cal (o0, o1, o2) (s0, s1, s2)) =
      (o0', o1', o2', (s0', s1', s2')) /\
    close o0 o0' /\ close o1 o1' /\ close o2 o2' /\
    close s0 s0' /\ close s1 s1' /\ close s2 s2'.
Proof.
  intros Hf.
  assert (Hstep : forall x r n,
             text_faithful close x ->
             exists x', close x x' /\
               scan_floats (S n) (fmt_f x ++ nl ++ r) = x' :: scan_floats n (nl ++ r)).
  { intros x r n [Hsp Hsc]. destruct (Hsc r) as (x' & Hx & Hcl).
    exists x'. split; [exact Hcl|].
    cbn [scan_floats]. rewrite Hsp, Hx. reflexivity. }
  assert (Hnl : forall n r, @scan_floats F FT n (nl ++ r) = scan_floats n r).
  { intros [|n] r; reflexivity. }
  unfold scan_mag_cal, fmt_mag_cal.
  destruct (Hstep o0 (fmt_f o1 ++ nl ++ fmt_f o2 ++ nl ++ fmt_f s0 ++ nl ++
                      fmt_f s1 ++ nl ++ fmt_f s2 ++ nl)%string 5%nat)
    as (o0' & C0 & E0); [apply Hf; cbn; auto|].
  destruct (Hstep o1 (fmt_f o2 ++ nl ++ fmt_f s0 ++ nl ++
                      fmt_f s1 ++ nl ++ fmt_f s2 ++ nl)%string 4%nat)
    as (o1' & C1 & E1); [apply Hf; cbn; auto|].
  destruct (Hstep o2 (fmt_f s0 ++ nl ++ fmt_f s1 ++ nl ++ fmt_f s2 ++ nl)%string 3%nat)
    as (o2' & C2 & E2); [apply Hf; cbn; auto|].
  destruct (Hstep s0 (fmt_f s1 ++ nl ++ fmt_f s2 ++ nl)%string 2%nat)
    as (s0' & C3 & E3); [apply Hf; cbn; auto|].
  destruct (Hstep s1 (fmt_f s2 ++ nl)%string 1%nat)
    as (s1' & C4 & E4); [apply Hf; cbn; auto 10|].
  destruct (Hstep s2 EmptyString 0%nat)
    as (s2' & C5 & E5); [apply Hf; cbn; auto 10|].
  exists o0', o1', o2', s0', s1', s2'.
  rewrite E0, Hnl, E1, Hnl, E2, Hnl, E3, Hnl, E4, Hnl.
  change (fmt_f s2 ++ nl)%string with (fmt_f s2 ++ nl ++ "")%string.
  rewrite E5.
  cbn [nth]. repeat split; assumption.
Qed.


End Persistence.

(** The bench libc is faithful on a given float. *)
Ltac bench_text_faithful :=
  split; intros r;
  [ vm_compute; reflexivity
  | eexists; split; [vm_compute; reflexivity | reflexivity] ].


(** A bench whose DMP memory reads back one byte wrong. *)
Lemma firmware_write_checks_witness :
  result (mpu_write_mem (env 0 []) 250 16 (Some (repeat 0 16))) world_boot = -1 /\
  result (dmp_load_motion_driver_firmware (corrupting_env 0 [])) world_boot = -2.
Proof.
  destruct (firmware_write_checks (corrupting_env 0 [])) as (H1 & H2 & H3 & _).
  split.
  - apply (firmware_write_checks (env 0 [])). cbn. lia.
  - unfold result. erewrite H3; [reflexivity|].
    destruct (H2 3%nat 0 (after (i2c_set_device_address IMU_ADDR) world_boot))
      as (_ & _ & Hbad & _).
    apply Hbad; reflexivity.
Defined.

(** ** Magnetometer calibration *)

Section Always.
Context {F : Type}.
Variable A : Type.
Variable P : A -> Prop.

Lemma always_ret (a : A) : P a -> always (F := F) P (ret a).
Proof. intros H w; exact H. Qed.

Lemma always_bind {B} (m : M F B) (k : B -> M F A) :
  (forall b, always P (k b)) -> always P (bind m k).
Proof.
  intros Hk w. unfold result, bind. destruct (m w) as [b w1]. apply Hk.
Qed.

End Always.

Ltac always_step :=
  match goal with
  | |- always _ (bind _ _) => apply always_bind; intros
  | |- always _ (ret _) => apply always_ret
  | |- always _ (if ?b then _ else _) => destruct b
  | |- always _ (match ?x with _ => _ end) => destruct x
  end.

Section MagCalibration.
Context {F : Type} {FO : FloatOps F} {D : mpu9250_defs F} {K : dmp_map}
        {FT : FloatText F}.
Variable E : environment F.

Lemma same_disk_refl (a : world F) : same_disk a a.
Proof. reflexivity. Qed.

Lemma same_disk_trans (a b c : world F) :
  same_disk a b -> same_disk b c -> same_disk a c.
Proof. unfold same_disk; congruence. Qed.

Ltac disk_step :=
  first
    [ keeps_step
    | apply (keeps_call same_disk (fun _ => true)); [intros; reflexivity | reflexivity]
    | apply keeps_printf; intros; reflexivity
    | apply keeps_modify; intros; reflexivity ].

Lemma keeps_disk_mpu_set_bypass b : keeps same_disk (mpu_set_bypass E b).
Proof.
  pose proof same_disk_refl; pose proof same_disk_trans.
  unfold mpu_set_bypass, i2c_write_byte, usleep, emit. repeat disk_step.
Qed.

Lemma keeps_disk_initialize_magnetometer : keeps same_disk (initialize_magnetometer E).
Proof.
  pose proof same_disk_refl; pose proof same_disk_trans.
  unfold initialize_magnetometer, i2c_write_byte, i2c_read_bytes,
    i2c_set_device_address, usleep, emit.
  repeat (first [disk_step | apply keeps_disk_mpu_set_bypass]).
Qed.

Lemma keeps_disk_power_off_imu : keeps same_disk (power_off_imu E).
Proof.
  pose proof same_disk_refl; pose proof same_disk_trans.
  unfold power_off_imu, i2c_write_byte, i2c_set_device_address, emit.
  repeat disk_step.
Qed.

Lemma keeps_disk_collect_mag n : forall i rows, keeps same_disk (collect_mag E n i rows).
Proof.
  pose proof same_disk_refl; pose proof same_disk_trans.
  induction n as [|n IH]; intros i rows; cbn [collect_mag].
  - disk_step.
  - unfold usleep, emit. repeat (first [disk_step | apply IH]).
Qed.

Lemma center_out_of_bounds_iff center :
  center_out_of_bounds center = true <-> center_exceeds center.
Proof.
  destruct center as [[c0 c1] c2]. unfold center_out_of_bounds, center_exceeds.
  rewrite !orb_true_iff. tauto.
Qed.

Lemma lengths_out_of_bounds_iff lengths :
  lengths_out_of_bounds lengths = true <-> length_outside lengths.
Proof.
  destruct lengths as [[l0 l1] l2]. unfold lengths_out_of_bounds, length_outside.
  rewrite !orb_true_iff. tauto.
Qed.

Lemma finish_rejects i rows w :
  (let '(r, center, lengths) := fitEllipsoid E rows in
   r < 0 \/ center_exceeds center \/ length_outside lengths) ->
  result (finish_mag_calibration E i rows) w = -1 /\
  disk (after (finish_mag_calibration E i rows) w) = disk w.
Proof.
  unfold finish_mag_calibration.
  destruct (i <? 200); [intros _; mrun; split; reflexivity|].
  destruct (fitEllipsoid E rows) as [[r center] lengths].
  intros Hrej. destruct (Z.ltb_spec r 0); [mrun; split; reflexivity|].
  destruct (center_out_of_bounds center) eqn:Hc; [mrun; split; reflexivity|].
  destruct (lengths_out_of_bounds lengths) eqn:Hl; [mrun; split; reflexivity|].
  exfalso. destruct Hrej as [Hr | [Hce | Hlo]].
  - lia.
  - apply center_out_of_bounds_iff in Hce. congruence.
  - apply lengths_out_of_bounds_iff in Hlo. congruence.
Qed.

Lemma finish_accepts i rows w r center l0 l1 l2 :
  fitEllipsoid E rows = (r, center, (l0, l1, l2)) ->
  200 <= i -> 0 <= r ->
  ~ center_exceeds center -> ~ length_outside (l0, l1, l2) ->
  finish_mag_calibration E i rows w =
  (r' <- write_mag_cal_to_disk center
           (fdiv (f_of_int 70) l0, fdiv (f_of_int 70) l1, fdiv (f_of_int 70) l2) ;;
   if r' <? 0 then ret (-1) else ret 0) w.
Proof.
  intros Hfit Hi Hr Hc Hl. unfold finish_mag_calibration.
  destruct (Z.ltb_spec i 200); [lia|]. rewrite Hfit.
  destruct (Z.ltb_spec r 0); [lia|].
  destruct (center_out_of_bounds center) eqn:Hc'.
  { exfalso; apply Hc, center_out_of_bounds_iff, Hc'. }
  destruct (lengths_out_of_bounds (l0, l1, l2)) eqn:Hl'.
  { exfalso; apply Hl, lengths_out_of_bounds_iff, Hl'. }
  reflexivity.
Qed.

Lemma write_mag_cal_result offsets scale w :
  result (write_mag_cal_to_disk offsets scale) w = 0 \/
  result (write_mag_cal_to_disk offsets scale) w = -1.
Proof.
  unfold write_mag_cal_to_disk, fopen_w, mkdir_config, fprintf_file. mrun.
  destruct (config_dir_present (disk w)) eqn:Hdir; mrun.
  - destruct (fprintf_works (disk w)); mrun; auto.
  - destruct (mkdir_works (disk w)); mrun.
    + cbn [config_dir_present fprintf_works]. mrun.
      destruct (fprintf_works (disk w)); mrun; auto.
    + rewrite Hdir. mrun. auto.
Qed.

Lemma write_mag_cal_succeeds offsets scale w :
  config_dir_present (disk w) = true \/ mkdir_works (disk w) = true ->
  fprintf_works (disk w) = true ->
  result (write_mag_cal_to_disk offsets scale) w = 0.
Proof.
  intros Hdir Hpr.
  unfold write_mag_cal_to_disk, fopen_w, mkdir_config, fprintf_file. mrun.
  destruct (config_dir_present (disk w)) eqn:Hd; mrun.
  - rewrite Hpr. reflexivity.
  - destruct Hdir as [Hdir | Hdir]; [discriminate|]. rewrite Hdir. mrun.
    cbn [config_dir_present fprintf_works]. mrun. rewrite Hpr. reflexivity.
Qed.


End MagCalibration.


(** ** The sampler thread *)

Section Sampler.
Context {F : Type} {FO : FloatOps F} {D : mpu9250_defs F} {K : dmp_map}.
Variable E : environment F.

Lemma same_registration_refl (a : world F) : same_registration a a.
Proof. unfold same_registration; auto. Qed.

Lemma same_registration_trans (a b c : world F) :
  same_registration a b -> same_registration b c -> same_registration a c.
Proof. unfold same_registration; intuition congruence. Qed.

Lemma callbacks_snoc l e :
  callbacks (l ++ [e]) = (callbacks l + (if is_callback e then 1 else 0))%nat.
Proof.
  unfold callbacks. rewrite filter_app, length_app. cbn [filter].
  destruct (is_callback e); reflexivity.
Qed.

Lemma edges_handled_snoc l e :
  edges_handled (l ++ [e]) = (edges_handled l + (if is_clock_read e then 1 else 0))%nat.
Proof.
  unfold edges_handled. rewrite filter_app, length_app. cbn [filter].
  destruct (is_clock_read e); reflexivity.
Qed.

Lemma same_registration_event e (w : world F) :
  quiet_event e = true -> same_registration w (set_hw_log (hw_log w ++ [e]) w).
Proof.
  unfold quiet_event, same_registration. intros Hq.
  apply andb_true_iff in Hq. destruct Hq as [H1 H2].
  apply negb_true_iff in H1, H2. wsimpl.
  rewrite callbacks_snoc, edges_handled_snoc, H1, H2.
  repeat split; lia.
Qed.

Ltac registration_frame :=
  first [ exact (@same_registration_refl) | exact (@same_registration_trans)
        | exact (@same_registration_event)
        | intros; reflexivity
        | intros; unfold same_registration; wsimpl; auto ].

Lemma read_dmp_fifo_registration : keeps same_registration (read_dmp_fifo E).
Proof.
  apply (keeps_read_dmp_fifo E same_registration quiet_event); registration_frame.
Qed.

Lemma mpu_reset_fifo_registration : keeps same_registration (mpu_reset_fifo E).
Proof.
  apply (keeps_mpu_reset_fifo E same_registration quiet_event); registration_frame.
Qed.

(** Taking up an edge reads the clock once and leaves the registration
    alone. *)
Lemma handler_sample_counts w :
  let w1 := after (handler_sample E) w in
  interrupt_running w1 = interrupt_running w /\
  imu_interrupt_func w1 = imu_interrupt_func w /\
  shutdown_interrupt_thread w1 = shutdown_interrupt_thread w /\
  callbacks (hw_log w1) = callbacks (hw_log w) /\
  edges_handled (hw_log w1) = S (edges_handled (hw_log w)).
Proof.
  cbv zeta.
  set (w0 := set_hw_log (hw_log w ++ [ReadClock]) w).
  set (m := ((modify (set_last_interrupt_timestamp_micros
                        (micros_since_epoch_ret E (hw_log w ++ [ReadClock]))) ;;
              busy <- i2c_get_in_use_state E ;;
              (if truthy busy then
                 printf "WARNING: Something has claimed the I2C bus when an\n" ;;
                 printf "IMU interrupt was received. Reading IMU anyway.\n"
               else ret tt) ;;
              i2c_claim_bus) ;;
             r <- read_dmp_fifo E ;;
             i2c_release_bus ;;
             modify (set_last_read_successful (if r =? 0 then 1 else 0))) : M F unit).
  assert (Heq : after (handler_sample E) w = after m w0) by reflexivity.
  rewrite Heq.
  assert (H0 : interrupt_running w0 = interrupt_running w /\
               imu_interrupt_func w0 = imu_interrupt_func w /\
               shutdown_interrupt_thread w0 = shutdown_interrupt_thread w /\
               callbacks (hw_log w0) = callbacks (hw_log w) /\
               edges_handled (hw_log w0) = S (edges_handled (hw_log w))).
  { unfold w0. wsimpl. rewrite callbacks_snoc, edges_handled_snoc. cbn.
    repeat split; lia. }
  assert (Hk : keeps same_registration m).
  { pose proof (@same_registration_refl); pose proof (@same_registration_trans).
    unfold m, i2c_get_in_use_state, i2c_claim_bus, i2c_release_bus, emit.
    repeat (first
      [ keeps_step
      | apply (keeps_call same_registration quiet_event);
          [exact (@same_registration_event) | reflexivity]
      | apply keeps_printf; intros; unfold same_registration; wsimpl; auto
      | apply keeps_modify; intros; unfold same_registration; wsimpl; auto
      | apply read_dmp_fifo_registration ]). }
  specialize (Hk w0). unfold same_registration in Hk.
  destruct H0 as (A1 & A2 & A3 & A4 & A5). destruct Hk as (B1 & B2 & B3 & B4 & B5).
  repeat split; congruence.
Qed.

(** What an edge does, by the local [first_run] and the registration. *)
Lemma handler_edge_spec first_run w :
  let w1 := after (handler_sample E) w in
  handler_edge E first_run w =
  if first_run =? 1 then (0, w1)
  else if truthy (interrupt_running w) then
    (first_run, set_hw_log (hw_log w1 ++ [UserCallback (imu_interrupt_func w)]) w1)
  else (first_run, w1).
Proof.
  cbv zeta. destruct (handler_sample_counts w) as (H1 & H2 & _).
  unfold handler_edge, handler_notify. unfold bind at 1. unfold after in *.
  destruct (handler_sample E w) as [u w1]. cbn [snd] in *.
  destruct (first_run =? 1); [reflexivity|]. mrun. rewrite H1.
  destruct (truthy (interrupt_running w)); [|reflexivity]. rewrite H2. reflexivity.
Qed.

Lemma do_user_calls_effect cs : forall w : world F,
  let w1 := after (do_user_calls cs) w in
  hw_log w1 = hw_log w /\
  (existsb is_stop cs = false -> interrupt_running w <> 0 -> interrupt_running w1 <> 0).
Proof.
  induction cs as [|c cs IH]; intros w; cbv zeta.
  - split; [reflexivity | auto].
  - cbn [do_user_calls existsb]. unfold after, bind.
    destruct (do_user_call c w) as [u w0] eqn:Hc. cbn [snd].
    destruct (IH w0) as [Hl Hr]. unfold after in Hl, Hr.
    assert (Hc' : hw_log w0 = hw_log w /\
                  (is_stop c = false -> interrupt_running w <> 0 ->
                   interrupt_running w0 <> 0)).
    { destruct c; unfold do_user_call, set_imu_interrupt_func, stop_imu_interrupt_func in Hc;
        revert Hc; mrun; intros Hc; apply (f_equal snd) in Hc; cbn [snd] in Hc;
        subst w0; wsimpl; (split; [reflexivity|]);
        cbn [is_stop]; intros Hs0 Hr1; first [discriminate Hs0 | exact Hr1 | lia]. }
    destruct Hc' as [Hl0 Hr0]. split; [congruence|].
    intros Hs Hrun. apply orb_false_iff in Hs. destruct Hs as [Hs1 Hs2].
    apply Hr; auto.
Qed.

(** One turn of the loop, unfolded. *)
Lemma handler_loop_cons t ticks first_run (w : world F) :
  after (handler_loop E (t :: ticks) first_run) w =
  if tk_exiting t || (shutdown_interrupt_thread w =? 1) then
    set_hw_log (hw_log w ++ [GpioFdClose]) w
  else
    let w1 := after (do_user_calls (tk_calls t)) (set_hw_log (hw_log w ++ [Poll]) w) in
    if tk_pollpri t then
      after (handler_loop E ticks (result (handler_edge E first_run) w1))
            (after (handler_edge E first_run) w1)
    else after (handler_loop E ticks first_run) w1.
Proof.
  cbn [handler_loop]. unfold after, result. unfold bind at 1, gets at 1.
  destruct (tk_exiting t || (shutdown_interrupt_thread w =? 1)); [reflexivity|].
  unfold bind at 1. unfold emit at 1, call at 1. unfold bind at 1.
  cbv zeta.
  destruct (do_user_calls (tk_calls t) _) as [u w1]. cbn [snd].
  unfold bind at 1.
  destruct (tk_pollpri t); [|reflexivity].
  destruct (handler_edge E first_run w1) as [fr w2]. reflexivity.
Qed.

(** The loop, counted: [e] edges taken up and [c] calls of the user
    function, with [c] at most [e], less one while [first_run] is 1. *)
Lemma handler_loop_counts ticks : forall first_run (w : world F),
  let w' := after (handler_loop E ticks first_run) w in
  exists e c,
    edges_handled (hw_log w') = (edges_handled (hw_log w) + e)%nat /\
    callbacks (hw_log w') = (callbacks (hw_log w) + c)%nat /\
    (c <= (if (first_run =? 1)%Z then Nat.pred e else e))%nat /\
    (interrupt_running w <> 0 -> never_stopped ticks ->
     c = if first_run =? 1 then Nat.pred e else e).
Proof.
  induction ticks as [|t ticks IH]; intros first_run w; cbv zeta.
  - exists 0%nat, 0%nat. cbn [handler_loop]. unfold after, ret. cbn [snd].
    destruct (first_run =? 1); repeat split; auto; lia.
  - rewrite handler_loop_cons.
    destruct (tk_exiting t || (shutdown_interrupt_thread w =? 1)).
    { exists 0%nat, 0%nat. wsimpl.
      rewrite callbacks_snoc, edges_handled_snoc. cbn.
      destruct (first_run =? 1); repeat split; auto; lia. }
    cbv zeta.
    set (w0 := set_hw_log (hw_log w ++ [Poll]) w).
    destruct (do_user_calls_effect (tk_calls t) w0) as [Hlog Hrun].
    set (w1 := after (do_user_calls (tk_calls t)) w0) in *.
    assert (Hw0 : edges_handled (hw_log w1) = edges_handled (hw_log w) /\
                  callbacks (hw_log w1) = callbacks (hw_log w)).
    { rewrite Hlog. unfold w0. wsimpl.
      rewrite callbacks_snoc, edges_handled_snoc. cbn. split; lia. }
    destruct Hw0 as [He0 Hc0].
    assert (Hrun' : interrupt_running w <> 0 -> never_stopped (t :: ticks) ->
                    interrupt_running w1 <> 0 /\ never_stopped ticks).
    { intros Hr Hns. split.
      - apply Hrun; [apply Hns; left; reflexivity | exact Hr].
      - intros t' Ht'. apply Hns. right. exact Ht'. }
    clearbody w1. clear Hlog Hrun.
    destruct (tk_pollpri t).
    + unfold result, after. rewrite handler_edge_spec. fold (after (handler_sample E) w1).
      destruct (handler_sample_counts w1) as (S1 & S2 & S3 & S4 & S5).
      cbv zeta in S1, S2, S3, S4, S5.
      set (w2 := after (handler_sample E) w1) in *. clearbody w2.
      destruct (Z.eqb_spec first_run 1) as [Hfr | Hfr].
      * cbn [fst snd]. fold (after (handler_loop E ticks 0) w2).
        specialize (IH 0 w2). cbv zeta in IH.
        destruct IH as (e & c & E1 & C1 & Hle & Heq).
        exists (S e), c. cbn [Z.eqb] in Hle, Heq. cbn [Nat.pred].
        split; [rewrite E1, S5, He0; lia|]. split; [rewrite C1, S4, Hc0; lia|].
        split; [exact Hle|].
        intros Hr Hns. destruct (Hrun' Hr Hns) as [Hr1 Hns1].
        apply Heq; [congruence | exact Hns1].
      * destruct (truthy (interrupt_running w1)) eqn:Htr.
        -- cbn [fst snd].
           set (w3 := set_hw_log _ w2).
           fold (after (handler_loop E ticks first_run) w3).
           specialize (IH first_run w3). cbv zeta in IH.
           destruct IH as (e & c & E1 & C1 & Hle & Heq).
           destruct (Z.eqb_spec first_run 1) as [|_]; [contradiction|].
           exists (S e), (S c).
           assert (Hw3 : edges_handled (hw_log w3) = S (edges_handled (hw_log w)) /\
                         callbacks (hw_log w3) = S (callbacks (hw_log w)) /\
                         interrupt_running w3 = interrupt_running w1).
           { unfold w3. wsimpl. rewrite callbacks_snoc, edges_handled_snoc. cbn.
             rewrite S5, S4, He0, Hc0, S1. repeat split; lia. }
           destruct Hw3 as (A1 & A2 & A3).
           split; [rewrite E1, A1; lia|]. split; [rewrite C1, A2; lia|].
           split; [lia|].
           intros Hr Hns. destruct (Hrun' Hr Hns) as [Hr1 Hns1].
           f_equal. apply Heq; [congruence | exact Hns1].
        -- cbn [fst snd]. fold (after (handler_loop E ticks first_run) w2).
           specialize (IH first_run w2). cbv zeta in IH.
           destruct IH as (e & c & E1 & C1 & Hle & Heq).
           destruct (Z.eqb_spec first_run 1) as [|_]; [contradiction|].
           exists (S e), c.
           split; [rewrite E1, S5, He0; lia|]. split; [rewrite C1, S4, Hc0; lia|].
           split; [lia|].
           intros Hr Hns. destruct (Hrun' Hr Hns) as [Hr1 Hns1].
           unfold truthy in Htr. apply negb_false_iff, Z.eqb_eq in Htr. contradiction.
    + specialize (IH first_run w1). cbv zeta in IH.
      destruct IH as (e & c & E1 & C1 & Hle & Heq).
      exists e, c.
      split; [rewrite E1, He0; lia|]. split; [rewrite C1, Hc0; lia|].
      split; [exact Hle|].
      intros Hr Hns. destruct (Hrun' Hr Hns) as [Hr1 Hns1]. apply Heq; assumption.
Qed.

(** The outcome of the read is what [last_read_successful] holds after
    the edge is taken up. *)
Lemma handler_sample_outcome w :
  last_read_successful (after (handler_sample E) w) =
  if result (read_dmp_fifo E) (after (handler_claim E) w) =? 0 then 1 else 0.
Proof.
  unfold handler_sample, after, result. unfold bind at 1.
  destruct (handler_claim E w) as [u w1]. cbn [snd].
  unfold bind at 1. destruct (read_dmp_fifo E w1) as [r w2]. cbn [fst].
  unfold i2c_release_bus. mrun. reflexivity.
Qed.

(** C7: in the sampler thread the first edge taken up never calls the user
    function, and every later edge calls the registered function exactly
    once, as the last thing done for that edge, whether or not the read
    succeeded, with [last_read_successful] holding the outcome.  A function
    is registered while [interrupt_running] is set, as bring-up and
    [set_imu_interrupt_func] leave it, and until [stop_imu_interrupt_func].
    Counted over a run of the thread: one call less than edges. *)
Theorem sampler_calls_back_once_per_edge (ticks : list tick) (w : world F)
  (Hregistered : interrupt_running w <> 0)
  (Hkept : never_stopped ticks) :
  let w' := after (imu_interrupt_handler E ticks) w in
  (callbacks (hw_log w') - callbacks (hw_log w) =
   Nat.pred (edges_handled (hw_log w') - edges_handled (hw_log w)))%nat /\
  forall (first_run : Z) (v : world F),
    let v1 := after (handler_sample E) v in
    last_read_successful v1 =
      (if result (read_dmp_fifo E) (after (handler_claim E) v) =? 0 then 1 else 0) /\
    callbacks (hw_log v1) = callbacks (hw_log v) /\
    (first_run = 1 -> handler_edge E first_run v = (0, v1)) /\
    (first_run <> 1 -> interrupt_running v <> 0 ->
     handler_edge E first_run v =
     (first_run, set_hw_log (hw_log v1 ++ [UserCallback (imu_interrupt_func v)]) v1)).
Proof.
  cbv zeta. split.
  - assert (Hrun : exists e,
              edges_handled (hw_log (after (imu_interrupt_handler E ticks) w)) =
                (edges_handled (hw_log w) + e)%nat /\
              callbacks (hw_log (after (imu_interrupt_handler E ticks) w)) =
                (callbacks (hw_log w) + Nat.pred e)%nat).
    { unfold imu_interrupt_handler, after. unfold bind, call. cbn [fst snd].
      set (w0 := set_hw_log (hw_log w ++ [GpioFdOpen]) w).
      assert (H0 : same_registration w w0)
        by (apply same_registration_event; reflexivity).
      clearbody w0. destruct (_ =? -1).
      + exists 0%nat. unfold printf, modify, ret. wsimpl.
        destruct H0 as (_ & _ & _ & Hc & He). rewrite Hc, He. split; lia.
      + pose proof (mpu_reset_fifo_registration w0) as H1. unfold after in H1.
        destruct (mpu_reset_fifo E w0) as [u w1]. cbn [snd] in H1.
        destruct (same_registration_trans _ _ _ H0 H1) as (Hr & _ & _ & Hc & He).
        destruct (handler_loop_counts ticks 1 w1) as (e & c & E1 & C1 & _ & Heq).
        unfold after in E1, C1. exists e. rewrite E1, C1, Hc, He.
        rewrite (Heq ltac:(congruence) Hkept). cbn [Z.eqb Pos.eqb]. split; reflexivity. }
    destruct Hrun as (e & -> & ->). f_equal; lia.
  - intros first_run v.
    destruct (handler_sample_counts v) as (_ & _ & _ & Hc & _).
    split; [apply handler_sample_outcome|]. split; [exact Hc|].
    pose proof (handler_edge_spec first_run v) as Hs. cbv zeta in Hs.
    split.
    + intros ->. exact Hs.
    + intros Hfr Hrun. rewrite Hs.
      destruct (Z.eqb_spec first_run 1) as [|_]; [contradiction|].
      unfold truthy. destruct (Z.eqb_spec (interrupt_running v) 0); [contradiction|].
      reflexivity.
Qed.

End Sampler.

(** A bench run: three edges, the user function registered before the
    first, called after the second and the third. *)
Lemma sampler_calls_back_once_per_edge_witness :
  interrupt_running (world0 0) <> 0 /\
  never_stopped steady_schedule /\
  edges_handled (hw_log (after (imu_interrupt_handler (env 28 unit_packet)
                                  steady_schedule) (world0 0))) = 3%nat /\
  filter is_callback (hw_log (after (imu_interrupt_handler (env 28 unit_packet)
                                       steady_schedule) (world0 0))) =
    [UserCallback 7; UserCallback 7] /\
  (callbacks (hw_log (after (imu_interrupt_handler (env 28 unit_packet)
                               steady_schedule) (world0 0))) -
   callbacks (hw_log (world0 0)) =
   Nat.pred (edges_handled (hw_log (after (imu_interrupt_handler (env 28 unit_packet)
                                             steady_schedule) (world0 0))) -
             edges_handled (hw_log (world0 0))))%nat.
Proof.
  assert (Hreg : interrupt_running (world0 0) <> 0) by (vm_compute; discriminate).
  assert (Hkept : never_stopped steady_schedule).
  { intros t Ht. unfold steady_schedule in Ht. cbn [In] in Ht.
    repeat (destruct Ht as [<- | Ht]; [reflexivity|]). destruct Ht. }
  split; [exact Hreg|]. split; [exact Hkept|].
  split; [vm_compute; reflexivity|]. split; [vm_compute; reflexivity|].
  exact (proj1 (sampler_calls_back_once_per_edge (env 28 unit_packet)
                  steady_schedule (world0 0) Hreg Hkept)).
Defined.

(** After [stop_imu_interrupt_func] no function is registered: on the bench,
    two edges are taken up and none calls back. *)
Example stopped_sampler_is_silent :
  let w' := after (imu_interrupt_handler (env 28 unit_packet) stopped_schedule)
                  (world0 0) in
  edges_handled (hw_log w') = 2%nat /\ callbacks (hw_log w') = 0%nat /\
  interrupt_running w' = 0.
Proof. vm_compute. repeat split. Qed.
(** ** Yaw fusion on binary32 *)

Lemma of_int_0 : Binary32.of_int 0 = S754_zero false.
Proof. reflexivity. Qed.

Lemma SFeqb_zero_inv x : SFeqb x (S754_zero false) = true -> exists s, x = S754_zero s.
Proof.
  destruct x as [s | s | | s m e]; cbn; try discriminate.
  - intros _. exists s. reflexivity.
  - destruct s; discriminate.
  - destruct s; discriminate.
Qed.

Lemma SFcompare_zero_r x s s' : SFcompare x (S754_zero s) = SFcompare x (S754_zero s').
Proof. destruct x; reflexivity. Qed.

Lemma SFcompare_zero_l x s s' : SFcompare (S754_zero s) x = SFcompare (S754_zero s') x.
Proof. destruct x; reflexivity. Qed.

Lemma SFeqb_refl x : x <> S754_nan -> SFeqb x x = true.
Proof.
  destruct x as [s | s | | s m e]; intros Hx; unfold SFeqb; cbn.
  - reflexivity.
  - destruct s; reflexivity.
  - contradiction.
  - rewrite Z.compare_refl, Pos.compare_cont_refl. destruct s; reflexivity.
Qed.

(** A binary32 number converts to itself. *)
Lemma to_single_valid x :
  valid_binary Binary32.prec Binary32.emax x = true -> Binary32.to_single x = x.
Proof.
  destruct x as [s | s | | s m e]; try reflexivity.
  cbn [valid_binary Binary32.to_single]. unfold bounded, canonical_mantissa.
  intros H. apply andb_true_iff in H. destruct H as [Hc He].
  apply Z.eqb_eq in Hc. apply Z.leb_le in He.
  unfold binary_round. rewrite Hc. unfold shl_align. rewrite Z.sub_diag.
  unfold binary_round_aux, shr_fexp. cbn [Zdigits2 shr_record_of_loc].
  rewrite Hc, Z.sub_diag. cbn [shr shr_m loc_of_shr_record shr_r shr_s round_nearest_even].
  cbn [Zdigits2 shr_record_of_loc]. rewrite Hc, Z.sub_diag. cbn [shr shr_m].
  apply Z.leb_le in He. rewrite He. reflexivity.
Qed.

Section FusionRun.
Context {F : Type} {FO : FloatOps F} {D : mpu9250_defs F}.
Variable E : environment F.

(** A run of [data_fusion] that gets past its three exits, in terms of its
    locals. *)
Lemma data_fusion_run (w : world F) (h : F) :
  fusion_newMagYaw0 E w = Some h ->
  feqb h h = true ->
  YAW_MIX_FACTOR (config w) <> 0 ->
  let w' := after (data_fusion E) w in
  result (data_fusion E) w = 0 /\
  lastYaw w' =
    wrap_0_2pi (blend_yaw (gyro_yaw w h) (delta_mag_yaw w h)
                  (YAW_MIX_FACTOR (config w)) (dmp_sample_rate (config w))) /\
  tb_yaw_z (fused_TaitBryan (data w')) = slide_to_pm_pi (lastYaw w').
Proof.
  intros Hh Hnum Hmix. apply Z.eqb_neq in Hmix.
  unfold fusion_newMagYaw0 in Hh.
  cbv zeta. unfold delta_mag_yaw, gyro_yaw, after, result, data_fusion. mrun.
  destruct (mag_quat_for (orientation (config w)) (mag (data w))) as [q0|];
    [|discriminate Hh].
  injection Hh as Hh. rewrite Hh, Hnum. cbn [negb]. mrun.
  destruct (truthy (fusion_first_run w)); mrun; rewrite Hmix; mrun;
    repeat split; reflexivity.
Qed.

End FusionRun.

Section Fusion.
Context {D : mpu9250_defs spec_float}.
Variable E : environment spec_float.

(** Adding a zero in [double] and converting back gives the number again,
    up to the sign of a zero. *)
Lemma blend_yaw_zero y d mix rate :
  (exists s, d = S754_zero s) ->
  y <> S754_nan ->
  valid_binary Binary32.prec Binary32.emax y = true ->
  feqb (fmul (f_of_int mix) (f_of_int rate)) (f_of_int 0) = false ->
  feqb (fmul (f_of_int mix) (f_of_int rate)) (fmul (f_of_int mix) (f_of_int rate)) = true ->
  blend_yaw y d mix rate = y \/
  (exists s s', blend_yaw y d mix rate = S754_zero s /\ y = S754_zero s').
Proof.
  intros [s ->] Hy Hv Hz Hn. unfold blend_yaw.
  cbn [to_dbl of_dbl dadd ddiv dmul d_of_int feqb fmul f_of_int Binary32.ops] in *.
  set (den := SFmul Binary32.prec Binary32.emax (Binary32.of_int mix)
                    (Binary32.of_int rate)) in *.
  clearbody den. rewrite of_int_0 in Hz.
  assert (Hc : exists s1, SFdiv Binary32.dprec Binary32.demax
                 (SFmul Binary32.dprec Binary32.demax (S754_zero s)
                    (binary_normalize Binary32.dprec Binary32.demax 100 0 false)) den
               = S754_zero s1).
  { let v := eval vm_compute in
               (binary_normalize Binary32.dprec Binary32.demax 100 0 false) in
    change (binary_normalize Binary32.dprec Binary32.demax 100 0 false) with v.
    cbn [SFmul].
    destruct den as [sd | sd | | sd md ed]; cbn [SFdiv].
    - cbn in Hz. discriminate Hz.
    - eexists; reflexivity.
    - cbn in Hn. discriminate Hn.
    - eexists; reflexivity. }
  destruct Hc as [s1 ->].
  destruct y as [sy | sy | | sy my ey].
  - right. exists (if Bool.eqb sy s1 then sy else false), sy. split; [|reflexivity].
    destruct sy, s1; reflexivity.
  - left. reflexivity.
  - contradiction.
  - left. cbn [SFadd]. apply to_single_valid. exact Hv.
Qed.

Lemma wrap_pm_pi_nan : wrap_pm_pi S754_nan = S754_nan.
Proof.
  unfold wrap_pm_pi. cbn [fleb fltb Binary32.ops]. unfold SFleb, SFltb.
  replace (SFcompare PI S754_nan) with (@None comparison) by (destruct PI; reflexivity).
  reflexivity.
Qed.

Lemma delta_zero_numbers (w : world spec_float) h :
  feqb (delta_mag_yaw w h) (f_of_int 0) = true ->
  h <> S754_nan /\ gyro_yaw w h <> S754_nan.
Proof.
  unfold delta_mag_yaw. intros H0.
  assert (Hsub : fsub (compass_yaw h) (gyro_yaw w h) <> S754_nan).
  { intros Hs. rewrite Hs, wrap_pm_pi_nan in H0. discriminate H0. }
  split.
  - intros ->. apply Hsub. unfold compass_yaw. reflexivity.
  - intros Hy. apply Hsub. rewrite Hy. cbn [fsub Binary32.ops].
    destruct (compass_yaw h); reflexivity.
Qed.

Lemma nonzero_divisor_mix mix rate :
  feqb (fmul (f_of_int mix) (f_of_int rate)) (f_of_int 0) = false ->
  feqb (fmul (f_of_int mix) (f_of_int rate)) (fmul (f_of_int mix) (f_of_int rate)) = true ->
  mix <> 0.
Proof.
  intros Hz Hn ->. cbn [feqb fmul f_of_int Binary32.ops] in Hz, Hn.
  rewrite of_int_0 in Hz, Hn.
  destruct (Binary32.of_int rate); cbn in Hz, Hn; discriminate.
Qed.

Lemma fltb_zero_r x s s' : fltb x (S754_zero s) = fltb x (S754_zero s').
Proof.
  cbn [fltb Binary32.ops]. unfold SFltb. rewrite (SFcompare_zero_r x s s'). reflexivity.
Qed.

Lemma fltb_zero_l x s s' : fltb (S754_zero s) x = fltb (S754_zero s') x.
Proof.
  cbn [fltb Binary32.ops]. unfold SFltb. rewrite (SFcompare_zero_l x s s'). reflexivity.
Qed.

Lemma wrap_0_2pi_in_range (y : spec_float) :
  fltb TWO_PI y = false -> fltb y (f_of_int 0) = false -> wrap_0_2pi y = y.
Proof. intros H1 H2. unfold wrap_0_2pi. rewrite H1, H2. reflexivity. Qed.


End Fusion.

